(** * The C boundary of multi_usrp: handle registry, lifecycle and dispatch

    A shallow embedding of [host/lib/usrp/usrp_c.cpp].  The wrapped device
    library is an external collaborator: it appears as a record of native
    entry points running in an abstract hardware world.  The registry is the
    process-wide [std::map<size_t, usrp_ptr>], the handles are the three
    public structs, and every exposed function is a program in a small
    monad that threads the registry, the caller's memory touched by the
    call and a trace of lock and forwarding events.

    What the embedding fixes: [size_t] is 64 bits wide; a pointer argument
    is modelled by what it points to in the caller's memory (a null handle
    pointer by [None]); exhausted memory ([std::bad_alloc]) and dangling
    pointers are left out; the macros and the error enumeration of
    [uhd/error.h], which the file includes, are modelled from the
    specification. *)

From Stdlib Require Import NArith Ascii String List Sorted Lia DecimalString DecimalN.
From stdpp Require Import base option list gmap.

Local Open Scope N_scope.

(** ** Plain data *)

(** [std::string] and C character buffers are sequences of [char]. *)
Definition std_string := list ascii.

Definition NUL : ascii := Ascii.zero.
Definition COMMA : ascii := ","%char.

(** String literals of the source. *)
Definition lit (s : string) : std_string := list_ascii_of_string s.

(** [size_t] on the LP64 targets the library is built for: 64 bits,
    unsigned, arithmetic modulo [2^64]. *)
Definition SIZE_WIDTH : N := 64.
Definition size_t_wrap (n : N) : N := n mod 2 ^ SIZE_WIDTH.

(** [x++] on a [size_t]. *)
Definition size_t_incr (n : N) : N := size_t_wrap (n + 1).

(** Modelled from the spec: the error enumeration of [uhd/error.h], which is
    not part of the sources at hand.  The spec names a closed enumeration
    with [NONE], [INVALID_DEVICE] and the generic [RUNTIME] / [UNKNOWN]
    categories for faults raised by forwarded native calls. *)
Inductive uhd_error : Set :=
| UHD_ERROR_NONE
| UHD_ERROR_INVALID_DEVICE
| UHD_ERROR_RUNTIME
| UHD_ERROR_UNKNOWN.

#[global] Instance uhd_error_eq_dec : EqDecision uhd_error.
Proof. solve_decision. Defined.

(** Modelled from the spec: a fault raised by native code (an exception of
    the wrapped library or of the runtime).  It falls in one of the generic
    categories and carries its human-readable diagnostic text. *)
Inductive fault_category : Set := RuntimeFault | UnknownFault.

Record native_fault : Type := Fault {
  category : fault_category;
  what : std_string
}.

(** Modelled from the spec: classification of a caught fault into the
    enumeration (the catch clauses of the [UHD_SAFE_C] macros). *)
Definition error_from_fault (f : native_fault) : uhd_error :=
  match category f with
  | RuntimeFault => UHD_ERROR_RUNTIME
  | UnknownFault => UHD_ERROR_UNKNOWN
  end.

(** What a forwarded native call gives back. *)
Inductive native_result (A : Type) : Type :=
| Ok (a : A)
| Throw (f : native_fault).
Arguments Ok {A} a.
Arguments Throw {A} f.

(** ** Public structs *)

Record uhd_usrp : Type := mk_uhd_usrp {
  usrp_index : N;
  last_error : std_string
}.

Record uhd_tx_streamer : Type := mk_uhd_tx_streamer {
  tx_usrp_index : N;
  tx_streamer_index : N;
  tx_last_error : std_string
}.

Record uhd_rx_streamer : Type := mk_uhd_rx_streamer {
  rx_usrp_index : N;
  rx_streamer_index : N;
  rx_last_error : std_string
}.

(** [uhd_stream_args_t] (C side) and [uhd::stream_args_t] (C++ side). *)
Record uhd_stream_args_t : Type := mk_uhd_stream_args_t {
  c_otw_format : std_string;
  c_cpu_format : std_string;
  c_args : std_string;
  c_channel_list : list N   (* [n_channels] is its length *)
}.

Record stream_args_t : Type := mk_stream_args_t {
  cpu_format : std_string;
  otw_format : std_string;
  args : std_string;
  channels : list N
}.

Definition stream_args_c_to_cpp (stream_args_c : uhd_stream_args_t) : stream_args_t :=
  let otw_format := c_otw_format stream_args_c in
  let cpu_format := c_cpu_format stream_args_c in
  let args := c_args stream_args_c in
  let channels := c_channel_list stream_args_c in
  {| cpu_format := cpu_format; otw_format := otw_format;
     args := args; channels := channels |}.

(** ** Locks and events *)

Inductive mutex : Set :=
| _rx_streamer_make_mutex
| _rx_streamer_free_mutex
| _tx_streamer_make_mutex
| _tx_streamer_free_mutex
| _usrp_find_mutex
| _usrp_make_mutex
| _usrp_free_mutex
| _usrp_get_rx_stream_mutex
| _usrp_get_tx_stream_mutex.

#[global] Instance mutex_eq_dec : EqDecision mutex.
Proof. solve_decision. Defined.

(** The native entry points the modelled functions forward to. *)
Inductive native_call : Set :=
| call_multi_usrp_make
| call_get_rx_stream
| call_get_tx_stream
| call_get_master_clock_rate
| call_get_pp_string
| call_get_time_sources
| call_get_rx_gain_names
| call_rx_get_num_channels
| call_rx_recv
| call_tx_get_num_channels
| call_accessor.

#[global] Instance native_call_eq_dec : EqDecision native_call.
Proof. solve_decision. Defined.

(** What a call does, in order: taking and giving back a mutex, entering
    native code, native code throwing, and changing the structure of the
    registry at a key (inserting, overwriting, erasing an entry or
    appending to one of its collections). *)
Inductive event : Type :=
| Acquire (m : mutex)
| Release (m : mutex)
| Forwarded (c : native_call)
| Thrown (f : native_fault)
| Structural (k : N).

#[global] Instance fault_category_eq_dec : EqDecision fault_category.
Proof. solve_decision. Defined.

#[global] Instance native_fault_eq_dec : EqDecision native_fault.
Proof. solve_decision. Defined.

#[global] Instance event_eq_dec : EqDecision event.
Proof. solve_decision. Defined.

(** ** The wrapped library *)

(** The native objects are opaque to the boundary; so are floating-point
    values, which it only passes through.  Every entry point runs in the
    hardware world and may throw. *)
Record native_layer : Type := {
  world : Type;
  multi_usrp : Type;
  rx_streamer : Type;
  tx_streamer : Type;
  double : Type;
  (* [uhd::device_addr_t device_addr(args); multi_usrp::make(device_addr)] *)
  multi_usrp_make : std_string -> world -> native_result multi_usrp * world;
  get_rx_stream : multi_usrp -> stream_args_t -> world -> native_result rx_streamer * world;
  get_tx_stream : multi_usrp -> stream_args_t -> world -> native_result tx_streamer * world;
  get_master_clock_rate : multi_usrp -> N -> world -> native_result double * world;
  get_pp_string : multi_usrp -> world -> native_result std_string * world;
  get_time_sources : multi_usrp -> N -> world -> native_result (list std_string) * world;
  get_rx_gain_names : multi_usrp -> N -> world -> native_result (list std_string) * world;
  rx_get_num_channels : rx_streamer -> world -> native_result N * world;
  (* buffers and metadata are filled by native code; the boundary sees the count *)
  rx_recv : rx_streamer -> N -> N -> double -> bool -> world -> native_result N * world;
  tx_get_num_channels : tx_streamer -> world -> native_result N * world;
  (* the destructor of a registry entry drops the registry's shared pointers
     to the device and to its streamers: what the native destructors that
     this sets off do to the world *)
  release : option multi_usrp -> list rx_streamer -> list tx_streamer -> world -> world
}.

(** ** Registry *)

(** How a statement ends: normally, by a [return] written inside the macro
    body, by an exception in flight, or by leaving defined behaviour (a
    null shared pointer dereferenced, a vector indexed out of range). *)
Inductive res (A : Type) : Type :=
| Val (a : A)
| Ret (e : uhd_error)
| Exn (f : native_fault)
| Undef.
Arguments Val {A} a.
Arguments Ret {A} e.
Arguments Exn {A} f.
Arguments Undef {A}.

(** How an exposed function ends for its caller: with a status code, or
    outside defined behaviour. *)
Inductive outcome : Type :=
| Returned (e : uhd_error)
| Undefined.

Section Registry.
Context {L : native_layer}.

(** [struct usrp_ptr]: [ptr] is a shared pointer, null in a
    default-constructed entry. *)
Record usrp_ptr : Type := mk_usrp_ptr {
  ptr : option (multi_usrp L);
  rx_streamers : list (rx_streamer L);
  tx_streamers : list (tx_streamer L)
}.

(** A default-constructed [usrp_ptr]. *)
Definition usrp_ptr_default : usrp_ptr :=
  {| ptr := None; rx_streamers := []; tx_streamers := [] |}.

(** Process-wide state: the static counter, the singleton map, and the
    hardware world behind the native layer. *)
Record state : Type := mk_state {
  usrp_counter : N;
  usrp_ptrs : gmap N usrp_ptr;
  hw : world L
}.

(** [loc] is the caller's memory the call may touch (the handle pointed to,
    the output parameters): its type varies with the function. *)
Record store (M : Type) : Type := mk_store {
  glob : state;
  loc : M;
  trace : list event
}.
Arguments mk_store {M} glob loc trace.
Arguments glob {M} s.
Arguments loc {M} s.
Arguments trace {M} s.

Definition prog (M A : Type) : Type := store M -> res A * store M.

Definition pure {M A} (a : A) : prog M A := fun s => (Val a, s).

Definition bind {M A B} (c : prog M A) (k : A -> prog M B) : prog M B :=
  fun s =>
    match c s with
    | (Val a, s') => k a s'
    | (Ret e, s') => (Ret e, s')
    | (Exn f, s') => (Exn f, s')
    | (Undef, s') => (Undef, s')
    end.

End Registry.

Arguments usrp_ptr L : clear implicits.
Arguments state L : clear implicits.
Arguments store L M : clear implicits.
Arguments mk_store {L M} glob loc trace.
Arguments glob {L M} s.
Arguments loc {L M} s.
Arguments trace {L M} s.
Arguments prog L M A : clear implicits.

#[global] Instance prog_ret {L M} : MRet (prog L M) := fun A => @pure L M A.
#[global] Instance prog_bind {L M} : MBind (prog L M) := fun A B k c => @bind L M A B c k.

(** ** C string primitives *)

(** A buffer is the caller's memory from the pointer on.  The capacity the
    caller passes along is the caller's word: a write of [n] chars into a
    shorter region runs past its end, and the list below grows to show
    it. *)
Definition buffer := list ascii.

(** [memset(dst, c, n)]: the first [n] chars become [c]. *)
Definition memset (dst : buffer) (c : ascii) (n : N) : buffer :=
  replicate (N.to_nat n) c ++ drop (N.to_nat n) dst.

(** [s.c_str()]: the contents followed by the terminator. *)
Definition c_str (s : std_string) : list ascii := s ++ [NUL].

(** The chars of a C string in memory: those before the first [NUL]. *)
Fixpoint until_nul (src : list ascii) : list ascii :=
  match src with
  | [] => []
  | c :: rest => if decide (c = NUL) then [] else c :: until_nul rest
  end.

(** [strncpy(dst, src, n)]: copies the chars of [src] up to its terminator,
    but at most [n] of them; when fewer than [n] were copied the remainder
    of the first [n] chars of [dst] is filled with [NUL].  Exactly [n] chars
    of [dst] are written; no terminator is added after them. *)
Definition strncpy (dst : buffer) (src : list ascii) (n : N) : buffer :=
  let copied := take (N.to_nat n) (until_nul src) in
  copied ++ replicate (N.to_nat n - length copied)%nat NUL ++ drop (N.to_nat n) dst.

(** [v.size()] of a vector; the subtraction of two [size_t] values, which
    wraps below zero. *)
Definition vector_size {A} (v : list A) : N := N.of_nat (length v).

Definition size_t_sub (a b : N) : N :=
  if b <=? a then a - b else a + 2 ^ SIZE_WIDTH - b.

(** ** Statements *)

Section Statements.
Context {L : native_layer} {M : Type}.

Definition get_loc : prog L M M := fun s => (Val (loc s), s).

Definition put_loc (m : M) : prog L M unit :=
  fun s => (Val tt, mk_store (glob s) m (trace s)).

(** [return e;] *)
Definition return_ {A} (e : uhd_error) : prog L M A := fun s => (Ret e, s).

(** Behaviour the language leaves undefined. *)
Definition undefined {A} : prog L M A := fun s => (Undef, s).

(** [p->...] through a pointer, shared or plain: a null one cannot be
    dereferenced. *)
Definition arrow {A} (p : option A) : prog L M A :=
  match p with
  | Some a => mret a
  | None => undefined
  end.

(** [v[i]] on a vector: unchecked. *)
Definition vector_at {A} (v : list A) (i : N) : prog L M A :=
  match v !! N.to_nat i with
  | Some a => mret a
  | None => undefined
  end.

(** A forwarded call into the wrapped library. *)
Definition forward {A} (c : native_call)
    (f : world L -> native_result A * world L) : prog L M A :=
  fun s =>
    let g := glob s in
    let '(r, w) := f (hw g) in
    let g' := mk_state (usrp_counter g) (usrp_ptrs g) w in
    match r with
    | Ok a => (Val a, mk_store g' (loc s) (trace s ++ [Forwarded c]))
    | Throw e => (Exn e, mk_store g' (loc s) (trace s ++ [Forwarded c; Thrown e]))
    end.

(** [boost::mutex::scoped_lock lock(m);] followed by the rest of the block:
    the mutex is taken here and given back when the block is left, whether
    normally, by [return] or by an exception. *)
Definition scoped_lock {A} (m : mutex) (rest : prog L M A) : prog L M A :=
  fun s =>
    match rest (mk_store (glob s) (loc s) (trace s ++ [Acquire m])) with
    | (Undef, s') => (Undef, s')
    | (r, s') => (r, mk_store (glob s') (loc s') (trace s' ++ [Release m]))
    end.

(** [usrp_ptr::usrp_counter] read and written. *)
Definition read_usrp_counter : prog L M N :=
  fun s => (Val (usrp_counter (glob s)), s).

Definition write_usrp_counter (n : N) : prog L M unit :=
  fun s => let g := glob s in
    (Val tt, mk_store (mk_state n (usrp_ptrs g) (hw g)) (loc s) (trace s)).

(** [get_usrp_ptrs().count(k)] *)
Definition registry_count (k : N) : prog L M N :=
  fun s => (Val (if usrp_ptrs (glob s) !! k is Some _ then 1 else 0), s).

(** [get_usrp_ptrs()[k]] read: [std::map::operator[]] inserts a
    default-constructed entry when the key is absent, then refers to the
    entry under the key. *)
Definition registry_at (k : N) : prog L M (usrp_ptr L) :=
  fun s => let g := glob s in
    match usrp_ptrs g !! k with
    | Some e => (Val e, s)
    | None =>
        (Val usrp_ptr_default,
         mk_store (mk_state (usrp_counter g) (<[k := usrp_ptr_default]> (usrp_ptrs g)) (hw g))
                  (loc s) (trace s ++ [Structural k]))
    end.

(** [get_usrp_ptrs().count(p->usrp_index)] through a handle pointer [p]
    that may be null, [k] being the index behind it: [count] takes the key
    by reference and reads it only to compare it with the key of a node, so
    on an empty map the handle is never read. *)
Definition registry_count_ref (k : option N) : prog L M N :=
  fun s =>
    if decide (usrp_ptrs (glob s) = ∅) then (Val 0, s)
    else (k ← arrow k; registry_count k) s.

(** The world after the entry under [k], if there is one, has gone: its
    shared pointers are released. *)
Definition dropped (k : N) (g : state L) : world L :=
  match usrp_ptrs g !! k with
  | Some e => release L (ptr e) (rx_streamers e) (tx_streamers e) (hw g)
  | None => hw g
  end.

(** [get_usrp_ptrs()[k] = P;]: the members of an entry already under [k]
    are released by the assignment. *)
Definition registry_assign (k : N) (P : usrp_ptr L) : prog L M unit :=
  fun s => let g := glob s in
    (Val tt, mk_store (mk_state (usrp_counter g) (<[k := P]> (usrp_ptrs g)) (dropped k g))
                      (loc s) (trace s ++ [Structural k])).

(** [get_usrp_ptrs().erase(k);]: the entry is destroyed. *)
Definition registry_erase (k : N) : prog L M unit :=
  fun s => let g := glob s in
    (Val tt, mk_store (mk_state (usrp_counter g) (delete k (usrp_ptrs g)) (dropped k g))
                      (loc s) (trace s ++ [Structural k])).

(** [usrp.rx_streamers.push_back(x);] and [usrp.tx_streamers.push_back(x);]
    through the reference [usrp] to the entry under [k]. *)
Definition push_back_rx (k : N) (x : rx_streamer L) : prog L M unit :=
  fun s => let g := glob s in
    (Val tt,
     mk_store (mk_state (usrp_counter g)
                 (alter (fun e => mk_usrp_ptr (ptr e) (rx_streamers e ++ [x]) (tx_streamers e))
                        k (usrp_ptrs g)) (hw g))
              (loc s) (trace s ++ [Structural k])).

Definition push_back_tx (k : N) (x : tx_streamer L) : prog L M unit :=
  fun s => let g := glob s in
    (Val tt,
     mk_store (mk_state (usrp_counter g)
                 (alter (fun e => mk_usrp_ptr (ptr e) (rx_streamers e) (tx_streamers e ++ [x]))
                        k (usrp_ptrs g)) (hw g))
              (loc s) (trace s ++ [Structural k])).

(** The macros [USRP(h_ptr)], [RX_STREAMER(h_ptr)], [TX_STREAMER(h_ptr)]. *)
Definition USRP (h_ptr : uhd_usrp) : prog L M (option (multi_usrp L)) :=
  e ← registry_at (usrp_index h_ptr); mret (ptr e).

Definition RX_STREAMER (h_ptr : uhd_rx_streamer) : prog L M (rx_streamer L) :=
  e ← registry_at (rx_usrp_index h_ptr);
  vector_at (rx_streamers e) (rx_streamer_index h_ptr).

Definition TX_STREAMER (h_ptr : uhd_tx_streamer) : prog L M (tx_streamer L) :=
  e ← registry_at (tx_usrp_index h_ptr);
  vector_at (tx_streamers e) (tx_streamer_index h_ptr).

(** Modelled from the spec: the macro [UHD_SAFE_C] of [uhd/error.h], which
    is not part of the sources at hand.  It wraps the body of an exposed
    function so that any fault raised inside is caught and classified into
    the enumeration; this form has no handle and yields the status only. *)
Definition UHD_SAFE_C (body : prog L M unit) : store L M -> outcome * store L M :=
  fun s =>
    match body s with
    | (Val _, s') => (Returned UHD_ERROR_NONE, s')
    | (Ret e, s') => (Returned e, s')
    | (Exn f, s') => (Returned (error_from_fault f), s')
    | (Undef, s') => (Undefined, s')
    end.

(** Modelled from the spec: the macro [UHD_SAFE_C_SAVE_ERROR] of
    [uhd/error.h], which is not part of the sources at hand.  As
    [UHD_SAFE_C], and on failure the diagnostic text of the fault is written
    into the [last_error] field of the handle [h]; [save] is that write on
    the caller's memory. *)
Definition UHD_SAFE_C_SAVE_ERROR (save : std_string -> M -> M)
    (body : prog L M unit) : store L M -> outcome * store L M :=
  fun s =>
    match body s with
    | (Val _, s') => (Returned UHD_ERROR_NONE, s')
    | (Ret e, s') => (Returned e, s')
    | (Exn f, s') =>
        (Returned (error_from_fault f),
         mk_store (glob s') (save (what f) (loc s')) (trace s'))
    | (Undef, s') => (Undefined, s')
    end.

End Statements.


(** ** Exposed functions *)

Section Exposed.
Context {L : native_layer}.

(** *** RX streamer *)

(** [boost::mutex::scoped_lock(_rx_streamer_make_mutex);] declares a local
    lock object of that name that owns no mutex, so nothing is taken.
    [new uhd_rx_streamer] leaves the two [size_t] members indeterminate:
    [indet_u] and [indet_s] are what the fresh memory holds.  The caller's
    memory is the pointer [*h]. *)
Definition uhd_rx_streamer_make (indet_u indet_s : N)
    : store L (option uhd_rx_streamer) -> outcome * store L (option uhd_rx_streamer) :=
  UHD_SAFE_C (
    put_loc (Some (mk_uhd_rx_streamer indet_u indet_s []))
  ).

Definition uhd_rx_streamer_free
    : store L (option uhd_rx_streamer) -> outcome * store L (option uhd_rx_streamer) :=
  UHD_SAFE_C (
    scoped_lock _rx_streamer_free_mutex (
      (* delete ( *h ); *)
      put_loc None
    )
  ).

(** The caller's memory is the handle [*h] and [*num_channels_out]. *)
Definition save_rx {A} (msg : std_string) (m : uhd_rx_streamer * A) : uhd_rx_streamer * A :=
  (mk_uhd_rx_streamer (rx_usrp_index m.1) (rx_streamer_index m.1) msg, m.2).

Definition uhd_rx_streamer_num_channels
    : store L (uhd_rx_streamer * N) -> outcome * store L (uhd_rx_streamer * N) :=
  UHD_SAFE_C_SAVE_ERROR save_rx (
    m ← get_loc;
    let h := m.1 in
    streamer ← RX_STREAMER h;
    n ← forward call_rx_get_num_channels (rx_get_num_channels L streamer);
    put_loc (h, n)
  ).

(** The caller's memory is the handle [*h] and [*items_recvd]. *)
Definition uhd_rx_streamer_recv (samps_per_buff : N) (timeout : double L) (one_packet : bool)
    : store L (uhd_rx_streamer * N) -> outcome * store L (uhd_rx_streamer * N) :=
  UHD_SAFE_C_SAVE_ERROR save_rx (
    m ← get_loc;
    let h := m.1 in
    streamer ← RX_STREAMER h;
    num_channels ← forward call_rx_get_num_channels (rx_get_num_channels L streamer);
    streamer ← RX_STREAMER h;
    n ← forward call_rx_recv
          (rx_recv L streamer num_channels samps_per_buff timeout one_packet);
    put_loc (h, n)
  ).

(** The caller's memory is the handle [*h] and the buffer [error_out]. *)
Definition uhd_rx_streamer_last_error (strbuffer_len : N)
    : store L (uhd_rx_streamer * buffer) -> outcome * store L (uhd_rx_streamer * buffer) :=
  UHD_SAFE_C_SAVE_ERROR save_rx (
    m ← get_loc;
    put_loc (m.1, memset m.2 NUL strbuffer_len);;
    m ← get_loc;
    put_loc (m.1, strncpy m.2 (c_str (rx_last_error m.1)) strbuffer_len)
  ).

(** *** TX streamer *)

Definition uhd_tx_streamer_make (indet_u indet_s : N)
    : store L (option uhd_tx_streamer) -> outcome * store L (option uhd_tx_streamer) :=
  UHD_SAFE_C (
    scoped_lock _tx_streamer_make_mutex (
      put_loc (Some (mk_uhd_tx_streamer indet_u indet_s []))
    )
  ).

Definition uhd_tx_streamer_free
    : store L (option uhd_tx_streamer) -> outcome * store L (option uhd_tx_streamer) :=
  UHD_SAFE_C (
    scoped_lock _tx_streamer_free_mutex (
      (* delete *h; *)
      put_loc None
    )
  ).

Definition save_tx {A} (msg : std_string) (m : uhd_tx_streamer * A) : uhd_tx_streamer * A :=
  (mk_uhd_tx_streamer (tx_usrp_index m.1) (tx_streamer_index m.1) msg, m.2).

Definition uhd_tx_streamer_num_channels
    : store L (uhd_tx_streamer * N) -> outcome * store L (uhd_tx_streamer * N) :=
  UHD_SAFE_C_SAVE_ERROR save_tx (
    m ← get_loc;
    let h := m.1 in
    streamer ← TX_STREAMER h;
    n ← forward call_tx_get_num_channels (tx_get_num_channels L streamer);
    put_loc (h, n)
  ).

(** The handle is only read; the caller's memory is the buffer [error_out]. *)
Definition uhd_tx_streamer_last_error (h : uhd_tx_streamer) (strbuffer_len : N)
    : store L buffer -> outcome * store L buffer :=
  UHD_SAFE_C (
    error_out ← get_loc;
    put_loc (memset error_out NUL strbuffer_len);;
    error_out ← get_loc;
    put_loc (strncpy error_out (c_str (tx_last_error h)) strbuffer_len)
  ).

(** *** Generate / destroy *)

(** The caller's memory is the pointer [*h]. *)
Definition uhd_usrp_make (args : std_string)
    : store L (option uhd_usrp) -> outcome * store L (option uhd_usrp) :=
  UHD_SAFE_C (
    scoped_lock _usrp_make_mutex (
      usrp_count ← read_usrp_counter;
      write_usrp_counter (size_t_incr usrp_count);;
      (* Initialize USRP *)
      p ← forward call_multi_usrp_make (multi_usrp_make L args);
      let P := mk_usrp_ptr (Some p) [] [] in
      (* Dump into registry *)
      registry_assign usrp_count P;;
      (* Update handle *)
      put_loc (Some (mk_uhd_usrp usrp_count []))
    )
  ).

(** The caller's memory is the pointer [*h], null or pointing to a handle.
    [( *h )->usrp_index] is handed to [count] by reference and read by
    [erase]. *)
Definition uhd_usrp_free
    : store L (option uhd_usrp) -> outcome * store L (option uhd_usrp) :=
  UHD_SAFE_C (
    scoped_lock _usrp_free_mutex (
      p ← get_loc;
      c ← registry_count_ref (usrp_index <$> p);
      if c =? 0 then return_ UHD_ERROR_INVALID_DEVICE
      else
        h ← arrow p;
        registry_erase (usrp_index h);;
        (* delete *h; *)
        put_loc None
    )
  ).

(** The handle is only read; the caller's memory is the buffer [error_out]. *)
Definition uhd_usrp_last_error (h : uhd_usrp) (strbuffer_len : N)
    : store L buffer -> outcome * store L buffer :=
  UHD_SAFE_C (
    error_out ← get_loc;
    put_loc (memset error_out NUL strbuffer_len);;
    error_out ← get_loc;
    put_loc (strncpy error_out (c_str (last_error h)) strbuffer_len)
  ).

(** The device handle [h_u] is only read; the caller's memory is the
    streamer handle [*h_s]. *)
Definition uhd_usrp_get_rx_stream (h_u : uhd_usrp) (stream_args : uhd_stream_args_t)
    : store L uhd_rx_streamer -> outcome * store L uhd_rx_streamer :=
  UHD_SAFE_C (
    scoped_lock _usrp_get_rx_stream_mutex (
      c ← registry_count (usrp_index h_u);
      if c =? 0 then return_ UHD_ERROR_INVALID_DEVICE
      else
        usrp ← registry_at (usrp_index h_u);
        dev ← arrow (ptr usrp);
        x ← forward call_get_rx_stream (get_rx_stream L dev (stream_args_c_to_cpp stream_args));
        push_back_rx (usrp_index h_u) x;;
        usrp ← registry_at (usrp_index h_u);
        h_s ← get_loc;
        put_loc (mk_uhd_rx_streamer (usrp_index h_u)
                   (size_t_sub (vector_size (rx_streamers usrp)) 1)
                   (rx_last_error h_s))
    )
  ).

Definition uhd_usrp_get_tx_stream (h_u : uhd_usrp) (stream_args : uhd_stream_args_t)
    : store L uhd_tx_streamer -> outcome * store L uhd_tx_streamer :=
  UHD_SAFE_C (
    scoped_lock _usrp_get_tx_stream_mutex (
      c ← registry_count (usrp_index h_u);
      if c =? 0 then return_ UHD_ERROR_INVALID_DEVICE
      else
        usrp ← registry_at (usrp_index h_u);
        dev ← arrow (ptr usrp);
        x ← forward call_get_tx_stream (get_tx_stream L dev (stream_args_c_to_cpp stream_args));
        push_back_tx (usrp_index h_u) x;;
        usrp ← registry_at (usrp_index h_u);
        h_s ← get_loc;
        put_loc (mk_uhd_tx_streamer (usrp_index h_u)
                   (size_t_sub (vector_size (tx_streamers usrp)) 1)
                   (tx_last_error h_s))
    )
  ).

(** *** multi_usrp calls *)

Definition save_usrp {A} (msg : std_string) (m : uhd_usrp * A) : uhd_usrp * A :=
  (mk_uhd_usrp (usrp_index m.1) msg, m.2).

(** The caller's memory is the handle [*h] and [*clock_rate_out]. *)
Definition uhd_usrp_get_master_clock_rate (mboard : N)
    : store L (uhd_usrp * double L) -> outcome * store L (uhd_usrp * double L) :=
  UHD_SAFE_C_SAVE_ERROR save_usrp (
    m ← get_loc;
    let h := m.1 in
    p ← USRP h;
    dev ← arrow p;
    rate ← forward call_get_master_clock_rate (get_master_clock_rate L dev mboard);
    put_loc (h, rate)
  ).

(** The caller's memory is the handle [*h] and the buffer [pp_string_out]. *)
Definition uhd_usrp_get_pp_string (strbuffer_len : N)
    : store L (uhd_usrp * buffer) -> outcome * store L (uhd_usrp * buffer) :=
  UHD_SAFE_C_SAVE_ERROR save_usrp (
    m ← get_loc;
    let h := m.1 in
    p ← USRP h;
    dev ← arrow p;
    pp ← forward call_get_pp_string (get_pp_string L dev);
    m ← get_loc;
    put_loc (h, strncpy m.2 (c_str pp) strbuffer_len)
  ).

(** The loop shared by the list-valued getters: every element followed by a
    comma; then, for a non-empty vector, the last char dropped
    ([resize(size() - 1)]). *)
Definition join_foreach (names : list std_string) : std_string :=
  let str := fold_left (fun acc name => (acc ++ name) ++ [COMMA]) names [] in
  if 0 <? vector_size names
  then take (N.to_nat (size_t_sub (vector_size str) 1)) str
  else str.

(** The caller's memory is the handle [*h], the buffer [time_sources_out]
    and [*num_time_sources_out]. *)
Definition uhd_usrp_get_time_sources (mboard : N) (strbuffer_len : N)
    : store L (uhd_usrp * (buffer * N)) -> outcome * store L (uhd_usrp * (buffer * N)) :=
  UHD_SAFE_C_SAVE_ERROR save_usrp (
    m ← get_loc;
    let h := m.1 in
    p ← USRP h;
    dev ← arrow p;
    time_sources ← forward call_get_time_sources (get_time_sources L dev mboard);
    m ← get_loc;
    put_loc (h, (m.2.1, vector_size time_sources));;
    let time_sources_str := join_foreach time_sources in
    m ← get_loc;
    put_loc (h, (memset m.2.1 NUL strbuffer_len, m.2.2));;
    m ← get_loc;
    put_loc (h, (strncpy m.2.1 (c_str time_sources_str) strbuffer_len, m.2.2))
  ).

(** The caller's memory is the handle [*h], the buffer [gain_names_out] and
    [*num_rx_gain_names_out]. *)
Definition uhd_usrp_get_rx_gain_names (chan : N) (strbuffer_len : N)
    : store L (uhd_usrp * (buffer * N)) -> outcome * store L (uhd_usrp * (buffer * N)) :=
  UHD_SAFE_C_SAVE_ERROR save_usrp (
    m ← get_loc;
    let h := m.1 in
    p ← USRP h;
    dev ← arrow p;
    rx_gain_names ← forward call_get_rx_gain_names (get_rx_gain_names L dev chan);
    m ← get_loc;
    put_loc (h, (m.2.1, vector_size rx_gain_names));;
    let rx_gain_names_str := join_foreach rx_gain_names in
    m ← get_loc;
    put_loc (h, (memset m.2.1 NUL strbuffer_len, m.2.2));;
    m ← get_loc;
    put_loc (h, (strncpy m.2.1 (c_str rx_gain_names_str) strbuffer_len, m.2.2))
  ).

(** *** The other accessors and mutators

    The remaining functions on a device handle that resolve the handle,
    forward to the device and marshal the result share one shape,
    [UHD_SAFE_C_SAVE_ERROR(h, out = USRP(h)->native(args);)]; so do the
    remaining streamer functions with [RX_STREAMER(h)] and
    [TX_STREAMER(h)].  [native] is the forwarded call with its translated
    arguments, [marshal] the write of its result into the output
    parameters [M]. *)
Definition uhd_usrp_accessor {M A : Type}
    (native : multi_usrp L -> world L -> native_result A * world L)
    (marshal : A -> M -> M)
    : store L (uhd_usrp * M) -> outcome * store L (uhd_usrp * M) :=
  UHD_SAFE_C_SAVE_ERROR save_usrp (
    m ← get_loc;
    let h := m.1 in
    p ← USRP h;
    dev ← arrow p;
    r ← forward call_accessor (native dev);
    m ← get_loc;
    put_loc (h, marshal r m.2)
  ).

Definition uhd_rx_streamer_accessor {M A : Type}
    (native : rx_streamer L -> world L -> native_result A * world L)
    (marshal : A -> M -> M)
    : store L (uhd_rx_streamer * M) -> outcome * store L (uhd_rx_streamer * M) :=
  UHD_SAFE_C_SAVE_ERROR save_rx (
    m ← get_loc;
    let h := m.1 in
    streamer ← RX_STREAMER h;
    r ← forward call_accessor (native streamer);
    m ← get_loc;
    put_loc (h, marshal r m.2)
  ).

Definition uhd_tx_streamer_accessor {M A : Type}
    (native : tx_streamer L -> world L -> native_result A * world L)
    (marshal : A -> M -> M)
    : store L (uhd_tx_streamer * M) -> outcome * store L (uhd_tx_streamer * M) :=
  UHD_SAFE_C_SAVE_ERROR save_tx (
    m ← get_loc;
    let h := m.1 in
    streamer ← TX_STREAMER h;
    r ← forward call_accessor (native streamer);
    m ← get_loc;
    put_loc (h, marshal r m.2)
  ).

End Exposed.

(** ** A concrete native layer

    A small wrapped library to run the boundary on: the world counts the
    native objects built so far, which also names them.  Device
    construction succeeds on empty arguments (auto-detect) and throws on
    anything else; a stream is built for host format [fc32] only; channel 1
    reports a gain name that holds a comma and channel 2 one that holds a
    [NUL]. *)
Definition no_devices_found : native_fault :=
  Fault RuntimeFault (lit "LookupError: KeyError: No devices found").

Definition bad_format : native_fault :=
  Fault RuntimeFault (lit "ValueError: unsupported host format").

Definition recv_timeout : native_fault :=
  Fault UnknownFault (lit "recv failed").

Definition bench_layer : native_layer := {|
  world := N;
  multi_usrp := N;
  rx_streamer := N;
  tx_streamer := N;
  double := N;
  multi_usrp_make := fun args w =>
    match args with
    | [] => (Ok w, w + 1)
    | _ :: _ => (Throw no_devices_found, w)
    end;
  get_rx_stream := fun dev sargs w =>
    if decide (cpu_format sargs = lit "fc32") then (Ok w, w + 1)
    else (Throw bad_format, w);
  get_tx_stream := fun dev sargs w =>
    if decide (cpu_format sargs = lit "fc32") then (Ok w, w + 1)
    else (Throw bad_format, w);
  get_master_clock_rate := fun dev mboard w => (Ok 32000000, w);
  get_pp_string := fun dev w => (Ok (lit "B200"), w);
  get_time_sources := fun dev mboard w =>
    (Ok [lit "none"; lit "external"; lit "gpsdo"], w);
  get_rx_gain_names := fun dev chan w =>
    (Ok (if chan =? 0 then [lit "PGA"]
         else if chan =? 1 then [lit "LNA,x"]
         else if chan =? 2 then [lit "TIA"; lit "mix" ++ NUL :: lit "er"]
         else []), w);
  rx_get_num_channels := fun s w => (Ok 1, w);
  rx_recv := fun s nchan samps timeout one_packet w =>
    if timeout =? 0 then (Throw recv_timeout, w) else (Ok samps, w);
  tx_get_num_channels := fun s w => (Ok 1, w);
  release := fun dev rx tx w => w + 1000
|}.

(** The state of a fresh process: counter at zero, empty registry. *)
Definition initial_state (L : native_layer) (w : world L) : state L :=
  mk_state 0 ∅ w.

(** ** Runs and observations *)

Section Runs.
Context {L : native_layer}.

(** One creation as its caller sees it, next to what the native layer
    answered to the construction forwarded by that call. *)
Record creation : Type := mk_creation {
  cr_status : outcome;
  cr_handle : option uhd_usrp;
  cr_native : native_result (multi_usrp L)
}.

(** Creations in a row, one per argument string, each into a pointer that
    starts out null; no other call in between. *)
Fixpoint make_run (argss : list std_string) (g : state L) : list creation * state L :=
  match argss with
  | [] => ([], g)
  | a :: rest =>
      let r := uhd_usrp_make a (mk_store g None []) in
      let '(rs, g') := make_run rest (glob r.2) in
      (mk_creation r.1 (loc r.2) (multi_usrp_make L a (hw g)).1 :: rs, g')
  end.

(** The handles a run returned, in the order of creation. *)
Definition handles_of (rs : list creation) : list uhd_usrp := omap cr_handle rs.

(** The exposed functions as calls, each with the caller's memory it is
    given. *)
Inductive api_call : Type :=
| rx_streamer_make (h : option uhd_rx_streamer) (indet_u indet_s : N)
| rx_streamer_free (h : option uhd_rx_streamer)
| rx_streamer_num_channels (h : uhd_rx_streamer) (num_channels_out : N)
| rx_streamer_recv (h : uhd_rx_streamer) (samps_per_buff : N) (timeout : double L)
    (one_packet : bool) (items_recvd : N)
| rx_streamer_last_error (h : uhd_rx_streamer) (error_out : buffer) (strbuffer_len : N)
| tx_streamer_make (h : option uhd_tx_streamer) (indet_u indet_s : N)
| tx_streamer_free (h : option uhd_tx_streamer)
| tx_streamer_num_channels (h : uhd_tx_streamer) (num_channels_out : N)
| tx_streamer_last_error (h : uhd_tx_streamer) (error_out : buffer) (strbuffer_len : N)
| usrp_make (h : option uhd_usrp) (args : std_string)
| usrp_free (h : option uhd_usrp)
| usrp_last_error (h : uhd_usrp) (error_out : buffer) (strbuffer_len : N)
| usrp_get_rx_stream (h_u : uhd_usrp) (stream_args : uhd_stream_args_t) (h_s : uhd_rx_streamer)
| usrp_get_tx_stream (h_u : uhd_usrp) (stream_args : uhd_stream_args_t) (h_s : uhd_tx_streamer)
| usrp_get_master_clock_rate (h : uhd_usrp) (mboard : N) (clock_rate_out : double L)
| usrp_get_pp_string (h : uhd_usrp) (pp_string_out : buffer) (strbuffer_len : N)
| usrp_get_time_sources (h : uhd_usrp) (mboard : N) (time_sources_out : buffer)
    (strbuffer_len : N) (num_time_sources_out : N)
| usrp_get_rx_gain_names (h : uhd_usrp) (chan : N) (gain_names_out : buffer)
    (strbuffer_len : N) (num_rx_gain_names_out : N)
| usrp_accessor (h : uhd_usrp) (M A : Type)
    (native : multi_usrp L -> world L -> native_result A * world L)
    (marshal : A -> M -> M) (out : M)
| rx_streamer_accessor (h : uhd_rx_streamer) (M A : Type)
    (native : rx_streamer L -> world L -> native_result A * world L)
    (marshal : A -> M -> M) (out : M)
| tx_streamer_accessor (h : uhd_tx_streamer) (M A : Type)
    (native : tx_streamer L -> world L -> native_result A * world L)
    (marshal : A -> M -> M) (out : M).

(** What a call leaves behind: its status, the process state, the events in
    order, and the [last_error] text of the handle it operated on (none when
    the call has no handle left afterwards). *)
Record report : Type := mk_report {
  status : outcome;
  after : state L;
  events : list event;
  handle_error : option std_string
}.

Definition report_of {M} (err : M -> option std_string) (r : outcome * store L M) : report :=
  mk_report r.1 (glob r.2) (trace r.2) (err (loc r.2)).

Definition run_call (c : api_call) (g : state L) : report :=
  match c with
  | rx_streamer_make h iu is_ =>
      report_of (fmap rx_last_error) (uhd_rx_streamer_make iu is_ (mk_store g h []))
  | rx_streamer_free h =>
      report_of (fmap rx_last_error) (uhd_rx_streamer_free (mk_store g h []))
  | rx_streamer_num_channels h out =>
      report_of (fun m => Some (rx_last_error m.1))
        (uhd_rx_streamer_num_channels (mk_store g (h, out) []))
  | rx_streamer_recv h samps timeout one_packet out =>
      report_of (fun m => Some (rx_last_error m.1))
        (uhd_rx_streamer_recv samps timeout one_packet (mk_store g (h, out) []))
  | rx_streamer_last_error h buf len =>
      report_of (fun m => Some (rx_last_error m.1))
        (uhd_rx_streamer_last_error len (mk_store g (h, buf) []))
  | tx_streamer_make h iu is_ =>
      report_of (fmap tx_last_error) (uhd_tx_streamer_make iu is_ (mk_store g h []))
  | tx_streamer_free h =>
      report_of (fmap tx_last_error) (uhd_tx_streamer_free (mk_store g h []))
  | tx_streamer_num_channels h out =>
      report_of (fun m => Some (tx_last_error m.1))
        (uhd_tx_streamer_num_channels (mk_store g (h, out) []))
  | tx_streamer_last_error h buf len =>
      report_of (fun _ => Some (tx_last_error h))
        (uhd_tx_streamer_last_error h len (mk_store g buf []))
  | usrp_make h a =>
      report_of (fmap last_error) (uhd_usrp_make a (mk_store g h []))
  | usrp_free h =>
      report_of (fmap last_error) (uhd_usrp_free (mk_store g h []))
  | usrp_last_error h buf len =>
      report_of (fun _ => Some (last_error h))
        (uhd_usrp_last_error h len (mk_store g buf []))
  | usrp_get_rx_stream h_u sa h_s =>
      report_of (fun m => Some (rx_last_error m))
        (uhd_usrp_get_rx_stream h_u sa (mk_store g h_s []))
  | usrp_get_tx_stream h_u sa h_s =>
      report_of (fun m => Some (tx_last_error m))
        (uhd_usrp_get_tx_stream h_u sa (mk_store g h_s []))
  | usrp_get_master_clock_rate h mboard out =>
      report_of (fun m => Some (last_error m.1))
        (uhd_usrp_get_master_clock_rate mboard (mk_store g (h, out) []))
  | usrp_get_pp_string h buf len =>
      report_of (fun m => Some (last_error m.1))
        (uhd_usrp_get_pp_string len (mk_store g (h, buf) []))
  | usrp_get_time_sources h mboard buf len num =>
      report_of (fun m => Some (last_error m.1))
        (uhd_usrp_get_time_sources mboard len (mk_store g (h, (buf, num)) []))
  | usrp_get_rx_gain_names h chan buf len num =>
      report_of (fun m => Some (last_error m.1))
        (uhd_usrp_get_rx_gain_names chan len (mk_store g (h, (buf, num)) []))
  | usrp_accessor h M A native marshal out =>
      report_of (fun m => Some (last_error m.1))
        (uhd_usrp_accessor native marshal (mk_store g (h, out) []))
  | rx_streamer_accessor h M A native marshal out =>
      report_of (fun m => Some (rx_last_error m.1))
        (uhd_rx_streamer_accessor native marshal (mk_store g (h, out) []))
  | tx_streamer_accessor h M A native marshal out =>
      report_of (fun m => Some (tx_last_error m.1))
        (uhd_tx_streamer_accessor native marshal (mk_store g (h, out) []))
  end.

(** The calls whose body is wrapped in [UHD_SAFE_C_SAVE_ERROR]; the others
    are wrapped in [UHD_SAFE_C]. *)
Definition saves_error (c : api_call) : bool :=
  match c with
  | rx_streamer_num_channels _ _ | rx_streamer_recv _ _ _ _ _
  | rx_streamer_last_error _ _ _ | tx_streamer_num_channels _ _
  | usrp_get_master_clock_rate _ _ _ | usrp_get_pp_string _ _ _
  | usrp_get_time_sources _ _ _ _ _ | usrp_get_rx_gain_names _ _ _ _ _
  | usrp_accessor _ _ _ _ _ _ | rx_streamer_accessor _ _ _ _ _ _
  | tx_streamer_accessor _ _ _ _ _ _ => true
  | _ => false
  end.

(** A device index resolves when the registry holds an entry with a device
    under it; a streamer index pair resolves when the registry holds an
    entry under the device index and the offset is within its collection. *)
Definition device_resolves (g : state L) (k : N) : Prop :=
  exists e dev, usrp_ptrs g !! k = Some e /\ ptr e = Some dev.

Definition rx_resolves (g : state L) (h : uhd_rx_streamer) : Prop :=
  exists e x, usrp_ptrs g !! rx_usrp_index h = Some e
    /\ rx_streamers e !! N.to_nat (rx_streamer_index h) = Some x.

Definition tx_resolves (g : state L) (h : uhd_tx_streamer) : Prop :=
  exists e x, usrp_ptrs g !! tx_usrp_index h = Some e
    /\ tx_streamers e !! N.to_nat (tx_streamer_index h) = Some x.

(** The handle a call is given can be followed to the native object the
    call needs.  The calls that test the index themselves only need an
    entry, if there is one, to hold a device. *)
Definition resolves (c : api_call) (g : state L) : Prop :=
  match c with
  | rx_streamer_num_channels h _ | rx_streamer_recv h _ _ _ _
  | rx_streamer_accessor h _ _ _ _ _ => rx_resolves g h
  | tx_streamer_num_channels h _ | tx_streamer_accessor h _ _ _ _ _ => tx_resolves g h
  | usrp_free h => is_Some h
  | usrp_get_rx_stream h_u _ _ | usrp_get_tx_stream h_u _ _ =>
      usrp_ptrs g !! usrp_index h_u = None \/ device_resolves g (usrp_index h_u)
  | usrp_get_master_clock_rate h _ _ | usrp_get_pp_string h _ _
  | usrp_get_time_sources h _ _ _ _ | usrp_get_rx_gain_names h _ _ _ _
  | usrp_accessor h _ _ _ _ _ =>
      device_resolves g (usrp_index h)
  | _ => True
  end.

(** The ways a registry grows from the registry of [g]: not at all, by a
    default-constructed entry under a key that was absent, by the entry of
    a creation under the counter's value, or by one streamer appended to a
    collection of an entry. *)
Inductive registry_grows (g : state L) : gmap N (usrp_ptr L) -> Prop :=
| grows_none : registry_grows g (usrp_ptrs g)
| grows_default k :
    usrp_ptrs g !! k = None ->
    registry_grows g (<[k := usrp_ptr_default]> (usrp_ptrs g))
| grows_created d :
    registry_grows g (<[usrp_counter g := mk_usrp_ptr (Some d) [] []]> (usrp_ptrs g))
| grows_rx_appended k e x :
    usrp_ptrs g !! k = Some e ->
    registry_grows g
      (<[k := mk_usrp_ptr (ptr e) (rx_streamers e ++ [x]) (tx_streamers e)]> (usrp_ptrs g))
| grows_tx_appended k e x :
    usrp_ptrs g !! k = Some e ->
    registry_grows g
      (<[k := mk_usrp_ptr (ptr e) (rx_streamers e) (tx_streamers e ++ [x])]> (usrp_ptrs g)).

(** The [last_error] text of the handle a call is given. *)
Definition given_error (c : api_call) : option std_string :=
  match c with
  | rx_streamer_make h _ _ | rx_streamer_free h => rx_last_error <$> h
  | rx_streamer_num_channels h _ | rx_streamer_recv h _ _ _ _
  | rx_streamer_last_error h _ _ | rx_streamer_accessor h _ _ _ _ _ =>
      Some (rx_last_error h)
  | tx_streamer_make h _ _ | tx_streamer_free h => tx_last_error <$> h
  | tx_streamer_num_channels h _ | tx_streamer_last_error h _ _
  | tx_streamer_accessor h _ _ _ _ _ => Some (tx_last_error h)
  | usrp_make h _ | usrp_free h => last_error <$> h
  | usrp_last_error h _ _ => Some (last_error h)
  | usrp_get_rx_stream _ _ h_s => Some (rx_last_error h_s)
  | usrp_get_tx_stream _ _ h_s => Some (tx_last_error h_s)
  | usrp_get_master_clock_rate h _ _ | usrp_get_pp_string h _ _
  | usrp_get_time_sources h _ _ _ _ | usrp_get_rx_gain_names h _ _ _ _
  | usrp_accessor h _ _ _ _ _ =>
      Some (last_error h)
  end.

(** Every key of the registry was handed out by the counter, which has not
    wrapped since. *)
Definition registry_fresh (g : state L) : Prop :=
  forall k, is_Some (usrp_ptrs g !! k) -> k < usrp_counter g.

End Runs.

Arguments creation L : clear implicits.
Arguments api_call L : clear implicits.
Arguments report L : clear implicits.

(** ** Reading a list-valued result back

    The caller of a list-valued getter reads the buffer as a C string,
    splits it on commas and keeps as many fields as the count says. *)
Fixpoint split_on_comma (s : list ascii) : list std_string :=
  match s with
  | [] => [[]]
  | c :: rest =>
      if decide (c = COMMA) then [] :: split_on_comma rest
      else match split_on_comma rest with
           | field :: fields => (c :: field) :: fields
           | [] => [[c]]
           end
  end.

Definition read_list (buf : buffer) (count : N) : list std_string :=
  take (N.to_nat count) (split_on_comma (until_nul buf)).

(** ** Lock discipline

    No forwarded call is entered while a mutex is held: [held] is the
    mutexes taken and not yet given back. *)
Fixpoint forwards_outside_locks (held : list mutex) (tr : list event) : bool :=
  match tr with
  | [] => true
  | Acquire m :: tr' => forwards_outside_locks (m :: held) tr'
  | Release m :: tr' =>
      forwards_outside_locks (filter (fun m' => m' ≠ m) held) tr'
  | Forwarded _ :: tr' =>
      match held with
      | [] => forwards_outside_locks held tr'
      | _ :: _ => false
      end
  | Thrown _ :: tr' | Structural _ :: tr' => forwards_outside_locks held tr'
  end.

(** The comma-separated text of a list of names: the names in order with
    one comma between neighbours. *)
Fixpoint joined (names : list std_string) : std_string :=
  match names with
  | [] => []
  | [name] => name
  | name :: rest => name ++ COMMA :: joined rest
  end.

(** The mutex a call takes to guard the registry, and the native entry
    point it forwards to while the registry is concerned. *)
Definition registry_lock {L} (c : api_call L) : option mutex :=
  match c with
  | usrp_make _ _ => Some _usrp_make_mutex
  | usrp_free _ => Some _usrp_free_mutex
  | usrp_get_rx_stream _ _ _ => Some _usrp_get_rx_stream_mutex
  | usrp_get_tx_stream _ _ _ => Some _usrp_get_tx_stream_mutex
  | _ => None
  end.

Definition forwards_to {L} (c : api_call L) (g : state L) : option native_call :=
  match c with
  | usrp_make _ _ => Some call_multi_usrp_make
  | usrp_get_rx_stream h_u _ _ =>
      if usrp_ptrs g !! usrp_index h_u is Some _ then Some call_get_rx_stream else None
  | usrp_get_tx_stream h_u _ _ =>
      if usrp_ptrs g !! usrp_index h_u is Some _ then Some call_get_tx_stream else None
  | _ => None
  end.

Definition is_lock_event (ev : event) : bool :=
  match ev with
  | Acquire _ | Release _ => true
  | _ => false
  end.

(** ** Concrete inputs on the bench *)

Definition bench_initial : state bench_layer := initial_state bench_layer 0.

(** The state after one successful creation: device 0 under index 0. *)
Definition bench_one_device : state bench_layer :=
  mk_state 1 {[ 0 := mk_usrp_ptr (L := bench_layer) (Some 0) [] [] ]} 1.

(** The state after attaching one receive streamer to that device. *)
Definition bench_attached : state bench_layer :=
  mk_state 1 {[ 0 := mk_usrp_ptr (L := bench_layer) (Some 0) [1] [] ]} 2.

Definition bench_usrp : uhd_usrp := mk_uhd_usrp 0 [].

(** The state after two successful creations. *)
Definition bench_two_devices : state bench_layer :=
  mk_state 2 {[ 0 := mk_usrp_ptr (L := bench_layer) (Some 0) [] [];
                1 := mk_usrp_ptr (L := bench_layer) (Some 1) [] [] ]} 2.

Definition fc32_args : uhd_stream_args_t :=
  mk_uhd_stream_args_t (lit "sc16") (lit "fc32") [] [0].

Definition sc8_args : uhd_stream_args_t :=
  mk_uhd_stream_args_t (lit "sc16") (lit "sc8") [] [0].

(** A streamer handle as [uhd_rx_streamer_make] leaves it, and one attached
    at offset 0 of device 0. *)
Definition bench_rx_fresh : uhd_rx_streamer := mk_uhd_rx_streamer 7 7 [].
Definition bench_rx_attached : uhd_rx_streamer := mk_uhd_rx_streamer 0 0 [].

(** Thirty-two chars of caller memory. *)
Definition bench_buffer : buffer := lit "zzzzzzzzzzzzzzzzzzzzzzzzzzzzzzzz".

(** ** More of the file

    The output structs of [uhd/usrp/usrp.h] filled by the info getters,
    with the fields the source names. *)
Module RxInfo.
Record t : Type := mk {
  mboard_id : std_string;
  mboard_serial : std_string;
  rx_id : std_string;
  rx_subdev_name : std_string;
  rx_subdev_spec : std_string;
  rx_serial : std_string;
  rx_antenna : std_string
}.
End RxInfo.

Module TxInfo.
Record t : Type := mk {
  mboard_id : std_string;
  mboard_serial : std_string;
  tx_id : std_string;
  tx_subdev_name : std_string;
  tx_subdev_spec : std_string;
  tx_serial : std_string;
  tx_antenna : std_string
}.
End TxInfo.

(** A [uhd::dict<std::string, std::string>] as the boundary uses it: through
    [get], which may throw. *)
Definition dict : Type := std_string -> native_result std_string.

Definition dict_has (d : dict) (keys : list std_string) : bool :=
  forallb (fun key => if d key is Ok _ then true else false) keys.

Definition dict_value (d : dict) (key : std_string) : std_string :=
  if d key is Ok v then v else [].

(** [strdup(s)]: a fresh copy of the C string at [s]. *)
Definition strdup (s : list ascii) : std_string := until_nul s.

(** A raw owning pointer as [new] and [delete] leave it: null, pointing to a
    live object, or still pointing to an object that was deleted. *)
Inductive owned_ptr (A : Type) : Type :=
| Null
| Live (a : A)
| Dangling.
Arguments Null {A}.
Arguments Live {A} a.
Arguments Dangling {A}.

(** The handle of [uhd_usrp_find]: the addresses found and the error slot. *)
Record uhd_device_addrs (D : Type) : Type := mk_uhd_device_addrs {
  device_addrs_cpp : list D;
  addrs_last_error : std_string
}.
Arguments mk_uhd_device_addrs {D} _ _.
Arguments device_addrs_cpp {D} _.
Arguments addrs_last_error {D} _.

(** [boost::format("%d") % n] for a [size_t]: its decimal digits. *)
Definition decimal (n : N) : std_string :=
  list_ascii_of_string (NilZero.string_of_uint (N.to_uint n)).

(** [str(boost::format("/mboards/%d/eeprom") % mboard)] *)
Definition mboard_eeprom_path (mboard : N) : std_string :=
  lit "/mboards/" ++ decimal mboard ++ lit "/eeprom".

(** [str(boost::format("/mboards/%d/dboards/%s/%s_eeprom") % mboard % slot % unit)] *)
Definition dboard_eeprom_path (mboard : N) (slot unit : std_string) : std_string :=
  lit "/mboards/" ++ decimal mboard ++ lit "/dboards/" ++ slot ++ lit "/"
    ++ unit ++ lit "_eeprom".

Section More.
Context {L : native_layer}.

(** The textual getters [uhd_usrp_get_mboard_name], [uhd_usrp_get_time_source],
    [uhd_usrp_get_clock_source], [uhd_usrp_get_rx_subdev_name],
    [uhd_usrp_get_rx_antenna], [uhd_usrp_get_tx_subdev_name] and
    [uhd_usrp_get_tx_antenna] have the body of [uhd_usrp_get_pp_string] with
    another native getter: [native] is that getter with its arguments.  The
    caller's memory is the handle and the buffer. *)
Definition uhd_usrp_get_string
    (native : multi_usrp L -> world L -> native_result std_string * world L)
    (strbuffer_len : N)
    : store L (uhd_usrp * buffer) -> outcome * store L (uhd_usrp * buffer) :=
  UHD_SAFE_C_SAVE_ERROR save_usrp (
    m ← get_loc;
    let h := m.1 in
    p ← USRP h;
    dev ← arrow p;
    text ← forward call_accessor (native dev);
    m ← get_loc;
    put_loc (h, strncpy m.2 (c_str text) strbuffer_len)
  ).

(** The list-valued getters [uhd_usrp_get_clock_sources],
    [uhd_usrp_get_mboard_sensor_names], [uhd_usrp_get_rx_antennas],
    [uhd_usrp_get_rx_sensor_names], [uhd_usrp_get_tx_gain_names],
    [uhd_usrp_get_tx_antennas], [uhd_usrp_get_tx_sensor_names] and
    [uhd_usrp_get_gpio_banks] have the body of [uhd_usrp_get_time_sources]
    with another native getter.  The caller's memory is the handle, the
    buffer and the count. *)
Definition uhd_usrp_get_names
    (native : multi_usrp L -> world L -> native_result (list std_string) * world L)
    (strbuffer_len : N)
    : store L (uhd_usrp * (buffer * N)) -> outcome * store L (uhd_usrp * (buffer * N)) :=
  UHD_SAFE_C_SAVE_ERROR save_usrp (
    m ← get_loc;
    let h := m.1 in
    p ← USRP h;
    dev ← arrow p;
    names ← forward call_accessor (native dev);
    m ← get_loc;
    put_loc (h, (m.2.1, vector_size names));;
    let names_str := join_foreach names in
    m ← get_loc;
    put_loc (h, (memset m.2.1 NUL strbuffer_len, m.2.2));;
    m ← get_loc;
    put_loc (h, (strncpy m.2.1 (c_str names_str) strbuffer_len, m.2.2))
  ).

(** [delete p;]: nothing for a null pointer; a live object is destroyed and
    the pointer keeps its value; deleting twice is undefined. *)
Definition delete_ptr {M A} (p : owned_ptr A) : prog L M (owned_ptr A) :=
  match p with
  | Null => mret Null
  | Live _ => mret Dangling
  | Dangling => undefined
  end.

(** [uhd_usrp_get_mboard_sensor], [uhd_usrp_get_rx_sensor] and
    [uhd_usrp_get_tx_sensor]: the old value of the output handle is deleted
    first, then the native sensor is read and a copy of it allocated.  The
    caller's memory is the device handle and the pointer
    [sensor_value_out->sensor_value_cpp]. *)
Definition uhd_usrp_get_sensor {V : Type}
    (native : multi_usrp L -> world L -> native_result V * world L)
    : store L (uhd_usrp * owned_ptr V) -> outcome * store L (uhd_usrp * owned_ptr V) :=
  UHD_SAFE_C_SAVE_ERROR save_usrp (
    m ← get_loc;
    let h := m.1 in
    deleted ← delete_ptr m.2;
    put_loc (h, deleted);;
    p ← USRP h;
    dev ← arrow p;
    v ← forward call_accessor (native dev);
    put_loc (h, Live v)
  ).

(** [dict.get(key)] *)
Definition dict_get {M} (d : dict) (key : std_string) : prog L M std_string :=
  fun s =>
    match d key with
    | Ok v => (Val v, s)
    | Throw f => (Exn f, mk_store (glob s) (loc s) (trace s ++ [Thrown f]))
    end.

(** [COPY_INFO_FIELD(out, dict, field)]: [set] is the assignment to
    [out->field]. *)
Definition COPY_INFO_FIELD {I : Type} (set : std_string -> I -> I) (d : dict)
    (field : std_string) : prog L (uhd_usrp * I) unit :=
  v ← dict_get d field;
  m ← get_loc;
  put_loc (m.1, set (strdup (c_str v)) m.2).

Definition uhd_usrp_get_rx_info
    (native : multi_usrp L -> N -> world L -> native_result dict * world L) (chan : N)
    : store L (uhd_usrp * RxInfo.t) -> outcome * store L (uhd_usrp * RxInfo.t) :=
  UHD_SAFE_C_SAVE_ERROR save_usrp (
    m ← get_loc;
    let h := m.1 in
    p ← USRP h;
    dev ← arrow p;
    rx_info ← forward call_accessor (native dev chan);
    COPY_INFO_FIELD (fun v i => RxInfo.mk v (RxInfo.mboard_serial i) (RxInfo.rx_id i)
        (RxInfo.rx_subdev_name i) (RxInfo.rx_subdev_spec i) (RxInfo.rx_serial i)
        (RxInfo.rx_antenna i)) rx_info (lit "mboard_id");;
    COPY_INFO_FIELD (fun v i => RxInfo.mk (RxInfo.mboard_id i) v (RxInfo.rx_id i)
        (RxInfo.rx_subdev_name i) (RxInfo.rx_subdev_spec i) (RxInfo.rx_serial i)
        (RxInfo.rx_antenna i)) rx_info (lit "mboard_serial");;
    COPY_INFO_FIELD (fun v i => RxInfo.mk (RxInfo.mboard_id i) (RxInfo.mboard_serial i) v
        (RxInfo.rx_subdev_name i) (RxInfo.rx_subdev_spec i) (RxInfo.rx_serial i)
        (RxInfo.rx_antenna i)) rx_info (lit "rx_id");;
    COPY_INFO_FIELD (fun v i => RxInfo.mk (RxInfo.mboard_id i) (RxInfo.mboard_serial i)
        (RxInfo.rx_id i) v (RxInfo.rx_subdev_spec i) (RxInfo.rx_serial i)
        (RxInfo.rx_antenna i)) rx_info (lit "rx_subdev_name");;
    COPY_INFO_FIELD (fun v i => RxInfo.mk (RxInfo.mboard_id i) (RxInfo.mboard_serial i)
        (RxInfo.rx_id i) (RxInfo.rx_subdev_name i) v (RxInfo.rx_serial i)
        (RxInfo.rx_antenna i)) rx_info (lit "rx_subdev_spec");;
    COPY_INFO_FIELD (fun v i => RxInfo.mk (RxInfo.mboard_id i) (RxInfo.mboard_serial i)
        (RxInfo.rx_id i) (RxInfo.rx_subdev_name i) (RxInfo.rx_subdev_spec i) v
        (RxInfo.rx_antenna i)) rx_info (lit "rx_serial");;
    COPY_INFO_FIELD (fun v i => RxInfo.mk (RxInfo.mboard_id i) (RxInfo.mboard_serial i)
        (RxInfo.rx_id i) (RxInfo.rx_subdev_name i) (RxInfo.rx_subdev_spec i)
        (RxInfo.rx_serial i) v) rx_info (lit "rx_antenna")
  ).

Definition uhd_usrp_get_tx_info
    (native : multi_usrp L -> N -> world L -> native_result dict * world L) (chan : N)
    : store L (uhd_usrp * TxInfo.t) -> outcome * store L (uhd_usrp * TxInfo.t) :=
  UHD_SAFE_C_SAVE_ERROR save_usrp (
    m ← get_loc;
    let h := m.1 in
    p ← USRP h;
    dev ← arrow p;
    tx_info ← forward call_accessor (native dev chan);
    COPY_INFO_FIELD (fun v i => TxInfo.mk v (TxInfo.mboard_serial i) (TxInfo.tx_id i)
        (TxInfo.tx_subdev_name i) (TxInfo.tx_subdev_spec i) (TxInfo.tx_serial i)
        (TxInfo.tx_antenna i)) tx_info (lit "mboard_id");;
    COPY_INFO_FIELD (fun v i => TxInfo.mk (TxInfo.mboard_id i) v (TxInfo.tx_id i)
        (TxInfo.tx_subdev_name i) (TxInfo.tx_subdev_spec i) (TxInfo.tx_serial i)
        (TxInfo.tx_antenna i)) tx_info (lit "mboard_serial");;
    COPY_INFO_FIELD (fun v i => TxInfo.mk (TxInfo.mboard_id i) (TxInfo.mboard_serial i) v
        (TxInfo.tx_subdev_name i) (TxInfo.tx_subdev_spec i) (TxInfo.tx_serial i)
        (TxInfo.tx_antenna i)) tx_info (lit "tx_id");;
    COPY_INFO_FIELD (fun v i => TxInfo.mk (TxInfo.mboard_id i) (TxInfo.mboard_serial i)
        (TxInfo.tx_id i) v (TxInfo.tx_subdev_spec i) (TxInfo.tx_serial i)
        (TxInfo.tx_antenna i)) tx_info (lit "tx_subdev_name");;
    COPY_INFO_FIELD (fun v i => TxInfo.mk (TxInfo.mboard_id i) (TxInfo.mboard_serial i)
        (TxInfo.tx_id i) (TxInfo.tx_subdev_name i) v (TxInfo.tx_serial i)
        (TxInfo.tx_antenna i)) tx_info (lit "tx_subdev_spec");;
    COPY_INFO_FIELD (fun v i => TxInfo.mk (TxInfo.mboard_id i) (TxInfo.mboard_serial i)
        (TxInfo.tx_id i) (TxInfo.tx_subdev_name i) (TxInfo.tx_subdev_spec i) v
        (TxInfo.tx_antenna i)) tx_info (lit "tx_serial");;
    COPY_INFO_FIELD (fun v i => TxInfo.mk (TxInfo.mboard_id i) (TxInfo.mboard_serial i)
        (TxInfo.tx_id i) (TxInfo.tx_subdev_name i) (TxInfo.tx_subdev_spec i)
        (TxInfo.tx_serial i) v) tx_info (lit "tx_antenna")
  ).

(** [uhd_usrp_find]: the caller's memory is the address-list handle and
    [*num_found]. *)
Definition save_addrs {D A} (msg : std_string) (m : uhd_device_addrs D * A)
    : uhd_device_addrs D * A :=
  (mk_uhd_device_addrs (device_addrs_cpp m.1) msg, m.2).

Definition uhd_usrp_find {D : Type}
    (device_find : std_string -> world L -> native_result (list D) * world L)
    (args : std_string)
    : store L (uhd_device_addrs D * N) -> outcome * store L (uhd_device_addrs D * N) :=
  UHD_SAFE_C_SAVE_ERROR save_addrs (
    scoped_lock _usrp_find_mutex (
      found ← forward call_accessor (device_find args);
      m ← get_loc;
      put_loc (mk_uhd_device_addrs found (addrs_last_error m.1), m.2);;
      m ← get_loc;
      put_loc (m.1, vector_size (device_addrs_cpp m.1))
    )
  ).

(** [uhd_usrp_get_mboard_eeprom] and [uhd_usrp_set_mboard_eeprom]:
    [tree_get] and [tree_set] are the property-tree accesses
    [ptree->access<...>(path).get()] and [.set(value)] on the device's tree.
    The caller's memory is the device handle and
    [mb_eeprom->mboard_eeprom_cpp]. *)
Definition uhd_usrp_get_mboard_eeprom {E : Type}
    (tree_get : multi_usrp L -> std_string -> world L -> native_result E * world L)
    (mboard : N)
    : store L (uhd_usrp * E) -> outcome * store L (uhd_usrp * E) :=
  UHD_SAFE_C_SAVE_ERROR save_usrp (
    let eeprom_path := mboard_eeprom_path mboard in
    m ← get_loc;
    let h := m.1 in
    p ← USRP h;
    dev ← arrow p;
    value ← forward call_accessor (tree_get dev eeprom_path);
    put_loc (h, value)
  ).

Definition uhd_usrp_set_mboard_eeprom {E : Type}
    (tree_set : multi_usrp L -> std_string -> E -> world L -> native_result unit * world L)
    (mboard : N)
    : store L (uhd_usrp * E) -> outcome * store L (uhd_usrp * E) :=
  UHD_SAFE_C_SAVE_ERROR save_usrp (
    let eeprom_path := mboard_eeprom_path mboard in
    m ← get_loc;
    let h := m.1 in
    p ← USRP h;
    dev ← arrow p;
    forward call_accessor (tree_set dev eeprom_path m.2);;
    mret ()
  ).

(** [uhd_usrp_get_dboard_eeprom] and [uhd_usrp_set_dboard_eeprom]; the
    parameters come as [unit], [slot], the path takes [slot], [unit]. *)
Definition uhd_usrp_get_dboard_eeprom {E : Type}
    (tree_get : multi_usrp L -> std_string -> world L -> native_result E * world L)
    (unit slot : std_string) (mboard : N)
    : store L (uhd_usrp * E) -> outcome * store L (uhd_usrp * E) :=
  UHD_SAFE_C_SAVE_ERROR save_usrp (
    let eeprom_path := dboard_eeprom_path mboard slot unit in
    m ← get_loc;
    let h := m.1 in
    p ← USRP h;
    dev ← arrow p;
    value ← forward call_accessor (tree_get dev eeprom_path);
    put_loc (h, value)
  ).

Definition uhd_usrp_set_dboard_eeprom {E : Type}
    (tree_set : multi_usrp L -> std_string -> E -> world L -> native_result unit * world L)
    (unit slot : std_string) (mboard : N)
    : store L (uhd_usrp * E) -> outcome * store L (uhd_usrp * E) :=
  UHD_SAFE_C_SAVE_ERROR save_usrp (
    let eeprom_path := dboard_eeprom_path mboard slot unit in
    m ← get_loc;
    let h := m.1 in
    p ← USRP h;
    dev ← arrow p;
    forward call_accessor (tree_set dev eeprom_path m.2);;
    mret ()
  ).

(** One attach as its caller sees it, next to what the native layer answered
    to the stream construction forwarded by that call. *)
Record attachment : Type := mk_attachment {
  at_status : outcome;
  at_handle : uhd_rx_streamer;
  at_native : native_result (rx_streamer L)
}.

(** Attaches in a row to the device [dev] behind [h_u], one per stream
    configuration, each into a copy of the streamer handle [h_s]. *)
Fixpoint attach_run (h_u : uhd_usrp) (dev : multi_usrp L) (h_s : uhd_rx_streamer)
    (configs : list uhd_stream_args_t) (g : state L) : list attachment * state L :=
  match configs with
  | [] => ([], g)
  | sa :: rest =>
      let r := uhd_usrp_get_rx_stream h_u sa (mk_store g h_s []) in
      let '(rs, g') := attach_run h_u dev h_s rest (glob r.2) in
      (mk_attachment r.1 (loc r.2)
         (get_rx_stream L dev (stream_args_c_to_cpp sa) (hw g)).1 :: rs, g')
  end.

(** The streaming objects a run built, in order. *)
Definition built (rs : list attachment) : list (rx_streamer L) :=
  omap (fun a => if at_native a is Ok x then Some x else None) rs.

(** [uhd_tx_streamer_send]: the number of channels is asked for first, then
    the samples are sent; buffers and metadata are filled and read by native
    code, the boundary sees the count.  [native_send] is
    [tx_streamer::send] with the caller's arguments and the channel count.
    The caller's memory is the handle and [*items_sent]. *)
Definition uhd_tx_streamer_send
    (native_send : tx_streamer L -> N -> world L -> native_result N * world L)
    : store L (uhd_tx_streamer * N) -> outcome * store L (uhd_tx_streamer * N) :=
  UHD_SAFE_C_SAVE_ERROR save_tx (
    m ← get_loc;
    let h := m.1 in
    streamer ← TX_STREAMER h;
    num_channels ← forward call_tx_get_num_channels (tx_get_num_channels L streamer);
    streamer ← TX_STREAMER h;
    n ← forward call_accessor (native_send streamer num_channels);
    put_loc (h, n)
  ).

(** A call ended within the boundary: it returned a status, and if native
    code threw on the way, the status is the one the fault is classified
    into and [err], the [last_error] of the call's handle afterwards, is the
    text of the fault. *)
Definition caught {M} (err : M -> std_string) (r : outcome * store L M) : Prop :=
  (exists e, r.1 = Returned e)
  /\ forall f, Thrown f ∈ trace r.2 ->
       r.1 = Returned (error_from_fault f)
       /\ error_from_fault f ≠ UHD_ERROR_NONE
       /\ err (loc r.2) = what f.

(** The registry key a call is about: the device index of the handle it is
    given, or, for a creation, the value of the counter. *)
Definition own_index (c : api_call L) (g : state L) : option N :=
  match c with
  | rx_streamer_num_channels h _ | rx_streamer_recv h _ _ _ _
  | rx_streamer_accessor h _ _ _ _ _ => Some (rx_usrp_index h)
  | tx_streamer_num_channels h _ | tx_streamer_accessor h _ _ _ _ _ =>
      Some (tx_usrp_index h)
  | usrp_make _ _ => Some (usrp_counter g)
  | usrp_free h => usrp_index <$> h
  | usrp_get_rx_stream h _ _ | usrp_get_tx_stream h _ _
  | usrp_get_master_clock_rate h _ _ | usrp_get_pp_string h _ _
  | usrp_get_time_sources h _ _ _ _ | usrp_get_rx_gain_names h _ _ _ _
  | usrp_accessor h _ _ _ _ _ => Some (usrp_index h)
  | _ => None
  end.

End More.

Arguments attachment L : clear implicits.

(** The fields of the info structs in the order the getters assign them, and
    the dictionary keys they are read from. *)
Definition rx_info_fields (i : RxInfo.t) : list std_string :=
  [RxInfo.mboard_id i; RxInfo.mboard_serial i; RxInfo.rx_id i; RxInfo.rx_subdev_name i;
   RxInfo.rx_subdev_spec i; RxInfo.rx_serial i; RxInfo.rx_antenna i].

Definition rx_info_keys : list std_string :=
  [lit "mboard_id"; lit "mboard_serial"; lit "rx_id"; lit "rx_subdev_name";
   lit "rx_subdev_spec"; lit "rx_serial"; lit "rx_antenna"].

Definition tx_info_fields (i : TxInfo.t) : list std_string :=
  [TxInfo.mboard_id i; TxInfo.mboard_serial i; TxInfo.tx_id i; TxInfo.tx_subdev_name i;
   TxInfo.tx_subdev_spec i; TxInfo.tx_serial i; TxInfo.tx_antenna i].

Definition tx_info_keys : list std_string :=
  [lit "mboard_id"; lit "mboard_serial"; lit "tx_id"; lit "tx_subdev_name";
   lit "tx_subdev_spec"; lit "tx_serial"; lit "tx_antenna"].

(** The separator of property-tree paths. *)
Definition SLASH : ascii := "/"%char.

(** ** Inputs for the other getters

    The registry entry of [bench_one_device]. *)
Definition bench_entry : usrp_ptr bench_layer := mk_usrp_ptr (L := bench_layer) (Some 0) [] [].

(** A dictionary that lacks the key [rx_id]. *)
Definition bench_info : dict := fun key =>
  if decide (key = lit "rx_id") then Throw no_devices_found else Ok (lit "B200").

Definition bench_info_getter (dev : multi_usrp bench_layer) (chan : N)
    (w : world bench_layer) : native_result dict * world bench_layer :=
  (Ok bench_info, w).

(** A native layer whose world is a property tree of numbers: every node
    reads 0 until it is set. *)
Definition tree_layer : native_layer := {|
  world := std_string -> N;
  multi_usrp := unit;
  rx_streamer := unit;
  tx_streamer := unit;
  double := N;
  multi_usrp_make := fun args w => (Ok (), w);
  get_rx_stream := fun dev sargs w => (Ok (), w);
  get_tx_stream := fun dev sargs w => (Ok (), w);
  get_master_clock_rate := fun dev mboard w => (Ok 0, w);
  get_pp_string := fun dev w => (Ok [], w);
  get_time_sources := fun dev mboard w => (Ok [], w);
  get_rx_gain_names := fun dev chan w => (Ok [], w);
  rx_get_num_channels := fun s w => (Ok 1, w);
  rx_recv := fun s nchan samps timeout one_packet w => (Ok samps, w);
  tx_get_num_channels := fun s w => (Ok 1, w);
  release := fun dev rx tx w => w
|}.

Definition bench_tree_get (dev : multi_usrp tree_layer) (path : std_string)
    (w : world tree_layer) : native_result N * world tree_layer :=
  (Ok (w path), w).

Definition bench_tree_set (dev : multi_usrp tree_layer) (path : std_string) (value : N)
    (w : world tree_layer) : native_result unit * world tree_layer :=
  (Ok (), fun q => if decide (path = q) then value else w q).

(** One device, under index 0, over the empty tree. *)
Definition bench_tree : state tree_layer :=
  mk_state 1 {[ 0 := mk_usrp_ptr (L := tree_layer) (Some ()) [] [] ]} (fun _ => 0).

(** * Properties *)

(** Unfolding a program down to its effect on the store. *)
Ltac run_prog :=
  unfold UHD_SAFE_C, UHD_SAFE_C_SAVE_ERROR, scoped_lock, USRP, RX_STREAMER,
    TX_STREAMER, registry_count_ref, arrow, vector_at, forward, registry_count,
    registry_at, registry_assign, registry_erase, push_back_rx, push_back_tx,
    read_usrp_counter, write_usrp_counter, get_loc, put_loc, return_,
    undefined, mbind, mret, prog_bind, prog_ret, bind, pure;
  cbn [glob loc trace usrp_counter usrp_ptrs hw fst snd].

(** Closed decidable facts, by evaluation. *)
Ltac by_decide :=
  match goal with
  | |- ?P => apply (bool_decide_unpack P); vm_compute; exact I
  end.

(** The same, rewriting with the facts at hand until the program is run. *)
Ltac run_with rew := run_prog; repeat (progress (rew; cbn)).

Lemma error_from_fault_fails (f : native_fault) :
  error_from_fault f ≠ UHD_ERROR_NONE /\ error_from_fault f ≠ UHD_ERROR_INVALID_DEVICE.
Proof. unfold error_from_fault. destruct (category f); split; discriminate. Qed.

Lemma size_t_incr_small (c : N) : c + 1 < 2 ^ SIZE_WIDTH -> size_t_incr c = c + 1.
Proof. intros H. unfold size_t_incr, size_t_wrap. apply N.mod_small. exact H. Qed.

Lemma size_after_push_back {A} (v : list A) (x : A) :
  size_t_sub (vector_size (v ++ [x])) 1 = vector_size v.
Proof.
  unfold size_t_sub, vector_size. rewrite length_app. cbn [length].
  destruct (N.leb_spec 1 (N.of_nat (length v + 1))); lia.
Qed.

Section Lifecycle.
Context {L : native_layer}.

(** *** uhd_usrp_make, step by step *)

Lemma uhd_usrp_make_ok (g : state L) (a : std_string) (slot : option uhd_usrp)
    (tr : list event) (d : multi_usrp L) (w : world L) :
  multi_usrp_make L a (hw g) = (Ok d, w) ->
  uhd_usrp_make a (mk_store g slot tr) =
    (Returned UHD_ERROR_NONE,
     mk_store (mk_state (size_t_incr (usrp_counter g))
                 (<[usrp_counter g := mk_usrp_ptr (Some d) [] []]> (usrp_ptrs g))
                 (dropped (usrp_counter g)
                    (mk_state (size_t_incr (usrp_counter g)) (usrp_ptrs g) w)))
              (Some (mk_uhd_usrp (usrp_counter g) []))
              (tr ++ [Acquire _usrp_make_mutex; Forwarded call_multi_usrp_make;
                      Structural (usrp_counter g); Release _usrp_make_mutex])).
Proof.
  intros Hn. unfold uhd_usrp_make. run_with ltac:(rewrite ?Hn).
  rewrite <- !app_assoc. reflexivity.
Qed.

Lemma uhd_usrp_make_throw (g : state L) (a : std_string) (slot : option uhd_usrp)
    (tr : list event) (f : native_fault) (w : world L) :
  multi_usrp_make L a (hw g) = (Throw f, w) ->
  uhd_usrp_make a (mk_store g slot tr) =
    (Returned (error_from_fault f),
     mk_store (mk_state (size_t_incr (usrp_counter g)) (usrp_ptrs g) w) slot
              (tr ++ [Acquire _usrp_make_mutex; Forwarded call_multi_usrp_make;
                      Thrown f; Release _usrp_make_mutex])).
Proof.
  intros Hn. unfold uhd_usrp_make. run_with ltac:(rewrite ?Hn).
  rewrite <- !app_assoc. reflexivity.
Qed.

(** *** uhd_usrp_free, step by step *)

Lemma uhd_usrp_free_present (g : state L) (h : uhd_usrp) (tr : list event) (e : usrp_ptr L) :
  usrp_ptrs g !! usrp_index h = Some e ->
  uhd_usrp_free (mk_store g (Some h) tr) =
    (Returned UHD_ERROR_NONE,
     mk_store (mk_state (usrp_counter g) (delete (usrp_index h) (usrp_ptrs g))
                 (dropped (usrp_index h) g))
              None
              (tr ++ [Acquire _usrp_free_mutex; Structural (usrp_index h);
                      Release _usrp_free_mutex])).
Proof.
  intros He. unfold uhd_usrp_free. run_prog.
  destruct (decide (usrp_ptrs g = ∅)) as [Hempty|_];
    [rewrite Hempty, lookup_empty in He; discriminate|].
  repeat (progress (rewrite ?He; cbn)).
  rewrite <- !app_assoc. reflexivity.
Qed.

Lemma uhd_usrp_free_absent (g : state L) (h : uhd_usrp) (tr : list event) :
  usrp_ptrs g !! usrp_index h = None ->
  uhd_usrp_free (mk_store g (Some h) tr) =
    (Returned UHD_ERROR_INVALID_DEVICE,
     mk_store g (Some h) (tr ++ [Acquire _usrp_free_mutex; Release _usrp_free_mutex])).
Proof.
  intros He. unfold uhd_usrp_free. run_prog.
  destruct (decide (usrp_ptrs g = ∅)); repeat (progress (rewrite ?He; cbn));
    rewrite <- !app_assoc; reflexivity.
Qed.

(** Through a pointer that is null, the handle is read only if the registry
    has an entry to compare its index with. *)
Lemma uhd_usrp_free_null (g : state L) (tr : list event) :
  uhd_usrp_free (mk_store g None tr) =
    if decide (usrp_ptrs g = ∅)
    then (Returned UHD_ERROR_INVALID_DEVICE,
          mk_store g None (tr ++ [Acquire _usrp_free_mutex; Release _usrp_free_mutex]))
    else (Undefined, mk_store g None (tr ++ [Acquire _usrp_free_mutex])).
Proof.
  unfold uhd_usrp_free. run_prog.
  destruct (decide (usrp_ptrs g = ∅)); cbn; rewrite <- ?app_assoc; reflexivity.
Qed.

(** *** Attach, step by step *)



Lemma uhd_usrp_get_rx_stream_ok (g : state L) (h_u : uhd_usrp)
    (sa : uhd_stream_args_t) (h_s : uhd_rx_streamer) (tr : list event)
    (e : usrp_ptr L) (dev : multi_usrp L) (x : rx_streamer L) (w : world L) :
  usrp_ptrs g !! usrp_index h_u = Some e -> ptr e = Some dev ->
  get_rx_stream L dev (stream_args_c_to_cpp sa) (hw g) = (Ok x, w) ->
  uhd_usrp_get_rx_stream h_u sa (mk_store g h_s tr) =
    (Returned UHD_ERROR_NONE,
     mk_store
       (mk_state (usrp_counter g)
          (<[usrp_index h_u := mk_usrp_ptr (ptr e) (rx_streamers e ++ [x]) (tx_streamers e)]>
             (usrp_ptrs g)) w)
       (mk_uhd_rx_streamer (usrp_index h_u) (vector_size (rx_streamers e)) (rx_last_error h_s))
       (tr ++ [Acquire _usrp_get_rx_stream_mutex; Forwarded call_get_rx_stream;
               Structural (usrp_index h_u); Release _usrp_get_rx_stream_mutex])).
Proof.
  intros He Hp Hn. unfold uhd_usrp_get_rx_stream.
  run_with ltac:(rewrite ?He, ?Hp, ?Hn, ?lookup_alter_eq).
  rewrite size_after_push_back, <- !app_assoc. cbn.
  do 3 f_equal. apply map_eq. intros k.
  destruct (decide (k = usrp_index h_u)) as [->|Hk].
  - rewrite lookup_alter_eq, lookup_insert_eq, He. cbn. rewrite ?Hp. reflexivity.
  - rewrite lookup_alter_ne, lookup_insert_ne by congruence. reflexivity.
Qed.

Lemma uhd_usrp_get_rx_stream_throw (g : state L) (h_u : uhd_usrp)
    (sa : uhd_stream_args_t) (h_s : uhd_rx_streamer) (tr : list event)
    (e : usrp_ptr L) (dev : multi_usrp L) (f : native_fault) (w : world L) :
  usrp_ptrs g !! usrp_index h_u = Some e -> ptr e = Some dev ->
  get_rx_stream L dev (stream_args_c_to_cpp sa) (hw g) = (Throw f, w) ->
  uhd_usrp_get_rx_stream h_u sa (mk_store g h_s tr) =
    (Returned (error_from_fault f),
     mk_store (mk_state (usrp_counter g) (usrp_ptrs g) w) h_s
       (tr ++ [Acquire _usrp_get_rx_stream_mutex; Forwarded call_get_rx_stream;
               Thrown f; Release _usrp_get_rx_stream_mutex])).
Proof.
  intros He Hp Hn. unfold uhd_usrp_get_rx_stream.
  run_with ltac:(rewrite ?He, ?Hp, ?Hn). rewrite <- !app_assoc. reflexivity.
Qed.





(** *** Creations in a row *)

(** What a run of creations does while the counter does not wrap: the
    handles carry the counter values in order, every call that built a
    device left it in the registry under its handle's index, and the
    registry is untouched outside the indices handed out. *)
Lemma make_run_spec (argss : list std_string) :
  forall g : state L,
    usrp_counter g + N.of_nat (length argss) <= 2 ^ SIZE_WIDTH ->
    let rs := (make_run argss g).1 in
    let g' := (make_run argss g).2 in
    Forall (fun h => usrp_counter g <= usrp_index h
                     /\ usrp_index h < usrp_counter g + N.of_nat (length argss))
           (handles_of rs)
    /\ StronglySorted N.lt (usrp_index <$> handles_of rs)
    /\ Forall (fun cr =>
         match cr_native cr with
         | Ok d => cr_status cr = Returned UHD_ERROR_NONE
                   /\ exists h, cr_handle cr = Some h
                        /\ usrp_ptrs g' !! usrp_index h = Some (mk_usrp_ptr (Some d) [] [])
         | Throw f => cr_status cr = Returned (error_from_fault f) /\ cr_handle cr = None
         end) rs
    /\ (forall k, k < usrp_counter g \/ usrp_counter g + N.of_nat (length argss) <= k ->
          usrp_ptrs g' !! k = usrp_ptrs g !! k).
Proof.
  induction argss as [|a rest IH]; intros g Hfit.
  - cbn. repeat split; auto using Forall_nil; constructor.
  - cbn [make_run length] in *.
    assert (Hc : usrp_counter g + 1 <= 2 ^ SIZE_WIDTH) by lia.
    destruct (multi_usrp_make L a (hw g)) as [[d|f] w] eqn:Hn.
    + rewrite (uhd_usrp_make_ok _ _ _ _ _ _ Hn). cbn [fst snd glob loc].
      set (g1 := mk_state _ (<[_ := _]> _) _).
      destruct rest as [|a' rest'].
      * cbn. unfold handles_of. cbn. repeat split.
        -- constructor; [cbn; lia|constructor].
        -- repeat constructor.
        -- constructor; [|constructor]. split; [reflexivity|].
           eexists; split; [reflexivity|]. cbn. apply lookup_insert_eq.
        -- intros k Hk. subst g1. cbn. apply lookup_insert_ne. lia.
      * assert (Hs : usrp_counter g1 = usrp_counter g + 1).
        { subst g1. cbn [usrp_counter]. apply size_t_incr_small. cbn [length] in Hfit. lia. }
        specialize (IH g1). rewrite Hs in IH.
        destruct IH as (Hrange & Hsort & Hreg & Hframe); [lia|].
        destruct (make_run (a' :: rest') g1) as [rs g'] eqn:Hrun.
        cbn [fst snd] in *. unfold handles_of in *. cbn [omap cr_handle].
        cbn [fmap list_fmap usrp_index]. repeat split.
        -- constructor; [cbn; lia|].
           eapply Forall_impl; [exact Hrange|]. cbn. intros h [? ?]. lia.
        -- constructor; [exact Hsort|].
           apply Forall_fmap. eapply Forall_impl; [exact Hrange|].
           cbn. intros h [? ?]. lia.
        -- constructor; [|exact Hreg]. cbn. split; [reflexivity|].
           eexists; split; [reflexivity|]. cbn.
           rewrite Hframe by lia. subst g1. cbn. apply lookup_insert_eq.
        -- intros k Hk. rewrite Hframe by lia. subst g1. cbn.
           apply lookup_insert_ne. lia.
    + rewrite (uhd_usrp_make_throw _ _ _ _ _ _ Hn). cbn [fst snd glob loc].
      set (g1 := mk_state _ _ w).
      destruct rest as [|a' rest'].
      * cbn. unfold handles_of. cbn. repeat split; try constructor; auto.
        cbn. split; reflexivity.
      * assert (Hs : usrp_counter g1 = usrp_counter g + 1).
        { subst g1. cbn [usrp_counter]. apply size_t_incr_small. cbn [length] in Hfit. lia. }
        specialize (IH g1). rewrite Hs in IH.
        destruct IH as (Hrange & Hsort & Hreg & Hframe); [lia|].
        destruct (make_run (a' :: rest') g1) as [rs g'] eqn:Hrun.
        cbn [fst snd] in *. unfold handles_of in *. cbn [omap cr_handle].
        repeat split.
        -- eapply Forall_impl; [exact Hrange|]. cbn. intros h [? ?]. lia.
        -- exact Hsort.
        -- constructor; [|exact Hreg]. cbn. split; reflexivity.
        -- intros k Hk. rewrite Hframe by lia. reflexivity.
Qed.

Lemma strictly_sorted_NoDup (l : list N) : StronglySorted N.lt l -> NoDup l.
Proof.
  induction 1 as [|x l Hs IH Hx]; constructor; [|exact IH].
  intros Hin. rewrite Forall_forall in Hx. specialize (Hx x Hin). lia.
Qed.

(** C4: creations in a row, with no destruction in between and while the
    64-bit counter does not wrap, hand out pairwise-distinct indices in
    strictly increasing order of creation; every call whose device was built
    returns success and a handle whose index is a key of the registry mapped
    to the device built by that call, and every other call returns no
    handle. *)
Theorem uhd_usrp_make_indices_increase (argss : list std_string) (g : state L) :
  usrp_counter g + N.of_nat (length argss) <= 2 ^ SIZE_WIDTH ->
  let rs := (make_run argss g).1 in
  let g' := (make_run argss g).2 in
  StronglySorted N.lt (usrp_index <$> handles_of rs)
  /\ NoDup (usrp_index <$> handles_of rs)
  /\ Forall (fun cr =>
       match cr_native cr with
       | Ok d => cr_status cr = Returned UHD_ERROR_NONE
                 /\ exists h, cr_handle cr = Some h
                      /\ usrp_ptrs g' !! usrp_index h = Some (mk_usrp_ptr (Some d) [] [])
       | Throw f => cr_status cr = Returned (error_from_fault f) /\ cr_handle cr = None
       end) rs.
Proof.
  intros Hfit. destruct (make_run_spec argss g Hfit) as (_ & Hsort & Hreg & _).
  cbv zeta. split; [exact Hsort|]. split; [|exact Hreg].
  apply strictly_sorted_NoDup, Hsort.
Qed.

(** C5, on the code.  [uhd_usrp_free] through a pointer to a live handle:
    when the handle's index is in the registry the call returns success,
    nulls the pointer and erases exactly that entry (every other entry and
    the counter are as before, and the native world is the one the release
    of the entry's device and streamers leaves); when the index is absent it
    returns INVALID_DEVICE and changes nothing.  The double free does not
    come out as the second of these: the first call nulled the pointer, so
    the second reads the index through a null pointer as soon as the
    registry has an entry left to compare it with, which is undefined, with
    the mutex still held; only over an empty registry is the handle never
    read and INVALID_DEVICE returned. *)
Theorem uhd_usrp_free_erases_or_rejects (g : state L) (h : uhd_usrp) :
  let r := uhd_usrp_free (mk_store g (Some h) []) in
  match usrp_ptrs g !! usrp_index h with
  | Some e =>
      r.1 = Returned UHD_ERROR_NONE
      /\ loc r.2 = None
      /\ usrp_ptrs (glob r.2) !! usrp_index h = None
      /\ (forall k, k ≠ usrp_index h -> usrp_ptrs (glob r.2) !! k = usrp_ptrs g !! k)
      /\ usrp_counter (glob r.2) = usrp_counter g
      /\ hw (glob r.2) = release L (ptr e) (rx_streamers e) (tx_streamers e) (hw g)
      /\ (let r2 := uhd_usrp_free (mk_store (glob r.2) (loc r.2) []) in
          if decide (delete (usrp_index h) (usrp_ptrs g) = ∅)
          then r2.1 = Returned UHD_ERROR_INVALID_DEVICE
               /\ glob r2.2 = glob r.2 /\ loc r2.2 = None
          else r2.1 = Undefined
               /\ glob r2.2 = glob r.2 /\ loc r2.2 = None
               /\ trace r2.2 = [Acquire _usrp_free_mutex])
  | None =>
      r.1 = Returned UHD_ERROR_INVALID_DEVICE
      /\ loc r.2 = Some h
      /\ glob r.2 = g
  end.
Proof.
  cbv zeta. destruct (usrp_ptrs g !! usrp_index h) as [e|] eqn:He.
  - rewrite (uhd_usrp_free_present _ _ _ _ He). cbn [fst snd glob loc usrp_ptrs usrp_counter hw].
    split; [reflexivity|]. split; [reflexivity|]. split; [apply lookup_delete_eq|].
    split; [intros k Hk; apply lookup_delete_ne; congruence|].
    split; [reflexivity|]. split; [unfold dropped; rewrite He; reflexivity|].
    rewrite uhd_usrp_free_null. cbn [usrp_ptrs].
    destruct (decide (delete (usrp_index h) (usrp_ptrs g) = ∅)); repeat split.
  - rewrite (uhd_usrp_free_absent _ _ _ He). cbn. repeat split.
Qed.

(** C9: when the native construction inside [uhd_usrp_make] throws, the call
    returns a failure status, inserts no registry entry and leaves the
    caller's handle pointer unwritten, yet the counter has moved on; while
    the counter does not wrap, the index it held is never handed out
    afterwards: a creation that succeeds next gets the index after it, and
    every handle of any later run of creations carries a strictly larger
    index. *)
Theorem uhd_usrp_make_failure_consumes_index (g : state L) (a : std_string)
    (slot : option uhd_usrp) (f : native_fault) (w : world L) (argss : list std_string) :
  multi_usrp_make L a (hw g) = (Throw f, w) ->
  usrp_counter g + 1 < 2 ^ SIZE_WIDTH ->
  usrp_counter g + 1 + N.of_nat (length argss) <= 2 ^ SIZE_WIDTH ->
  let r := uhd_usrp_make a (mk_store g slot []) in
  r.1 = Returned (error_from_fault f)
  /\ error_from_fault f ≠ UHD_ERROR_NONE
  /\ usrp_ptrs (glob r.2) = usrp_ptrs g
  /\ loc r.2 = slot
  /\ usrp_counter (glob r.2) = usrp_counter g + 1
  /\ (forall a' slot' d w',
        multi_usrp_make L a' (hw (glob r.2)) = (Ok d, w') ->
        let r' := uhd_usrp_make a' (mk_store (glob r.2) slot' []) in
        r'.1 = Returned UHD_ERROR_NONE
        /\ loc r'.2 = Some (mk_uhd_usrp (usrp_counter g + 1) [])
        /\ usrp_ptrs (glob r'.2) !! usrp_counter g = usrp_ptrs g !! usrp_counter g)
  /\ Forall (fun h => usrp_counter g < usrp_index h)
            (handles_of (make_run argss (glob r.2)).1)
  /\ usrp_ptrs (make_run argss (glob r.2)).2 !! usrp_counter g
     = usrp_ptrs g !! usrp_counter g.
Proof.
  intros Hn Hc Hfit. cbv zeta.
  rewrite (uhd_usrp_make_throw _ _ _ _ _ _ Hn). cbn [fst snd glob loc].
  set (g1 := mk_state _ _ w).
  assert (Hs : usrp_counter g1 = usrp_counter g + 1).
  { subst g1. cbn [usrp_counter]. apply size_t_incr_small, Hc. }
  split; [reflexivity|]. split; [apply error_from_fault_fails|].
  split; [reflexivity|]. split; [reflexivity|]. split; [exact Hs|]. split.
  - intros a' slot' d w' Hn'. rewrite (uhd_usrp_make_ok _ _ _ _ _ _ Hn').
    cbn [fst snd glob loc]. rewrite Hs. split; [reflexivity|]. split; [reflexivity|].
    cbn [usrp_ptrs]. subst g1. cbn [usrp_ptrs]. apply lookup_insert_ne. lia.
  - destruct (make_run_spec argss g1) as (Hrange & _ & _ & Hframe); [rewrite Hs; lia|].
    cbv zeta in *. rewrite Hs in Hrange, Hframe. split.
    + eapply Forall_impl; [exact Hrange|]. cbn. intros h [? ?]. lia.
    + rewrite Hframe by lia. reflexivity.
Qed.


End Lifecycle.

(** ** Every call *)

Ltac unfold_calls :=
  unfold run_call, report_of, uhd_rx_streamer_make, uhd_rx_streamer_free,
    uhd_rx_streamer_num_channels, uhd_rx_streamer_recv, uhd_rx_streamer_last_error,
    uhd_tx_streamer_make, uhd_tx_streamer_free, uhd_tx_streamer_num_channels,
    uhd_tx_streamer_last_error, uhd_usrp_make, uhd_usrp_free, uhd_usrp_last_error,
    uhd_usrp_get_rx_stream, uhd_usrp_get_tx_stream, uhd_usrp_get_master_clock_rate,
    uhd_usrp_get_pp_string, uhd_usrp_get_time_sources, uhd_usrp_get_rx_gain_names,
    uhd_usrp_accessor, uhd_rx_streamer_accessor, uhd_tx_streamer_accessor.

Section Calls.
Context {L : native_layer}.

Lemma alter_as_insert (m : gmap N (usrp_ptr L)) (k : N) (e : usrp_ptr L)
    (f : usrp_ptr L -> usrp_ptr L) :
  m !! k = Some e -> alter f k m = <[k := f e]> m.
Proof.
  intros He. apply map_eq. intros j. destruct (decide (j = k)) as [->|Hj].
  - rewrite lookup_alter_eq, lookup_insert_eq, He. reflexivity.
  - rewrite lookup_alter_ne, lookup_insert_ne by congruence. reflexivity.
Qed.

(** How the registry has changed when a call is over: only
    [uhd_usrp_free] takes an entry away. *)
Lemma run_call_registry (c : api_call L) (g : state L) :
  match c with
  | usrp_free (Some h) =>
      usrp_ptrs (after (run_call c g)) = delete (usrp_index h) (usrp_ptrs g)
      \/ usrp_ptrs (after (run_call c g)) = usrp_ptrs g
  | _ => registry_grows g (usrp_ptrs (after (run_call c g)))
  end.
Proof.
  destruct c; unfold_calls; run_prog; cbn.
  all: repeat (case_match; simplify_eq; cbn in * ).
  all: try (constructor; done).
  all: try (left; reflexivity).
  all: try (right; reflexivity).
  all: try match goal with
       | H : alter _ ?k ?m !! ?k = None, H' : ?m !! ?k = Some _ |- _ =>
           rewrite lookup_alter_eq, H' in H; discriminate
       end.
  all: erewrite alter_as_insert by eassumption; econstructor; eassumption.
Qed.

Lemma registry_grows_entry (g : state L) (m : gmap N (usrp_ptr L)) (k : N) (e : usrp_ptr L) :
  registry_fresh g -> registry_grows g m -> usrp_ptrs g !! k = Some e ->
  exists e', m !! k = Some e' /\ ptr e' = ptr e
    /\ (exists more, rx_streamers e' = rx_streamers e ++ more)
    /\ (exists more, tx_streamers e' = tx_streamers e ++ more).
Proof.
  intros Hfresh Hgrow He.
  assert (Hsame : exists e', Some e = Some e' /\ ptr e' = ptr e
    /\ (exists more, rx_streamers e' = rx_streamers e ++ more)
    /\ (exists more, tx_streamers e' = tx_streamers e ++ more)).
  { exists e. repeat split; exists []; symmetry; apply app_nil_r. }
  destruct Hgrow as [|k' Hk'|d|k' e0 x Hk'|k' e0 x Hk'].
  - rewrite He. exact Hsame.
  - rewrite lookup_insert_ne, He by congruence. exact Hsame.
  - assert (k < usrp_counter g) by (apply Hfresh; rewrite He; eauto).
    rewrite lookup_insert_ne, He by lia. exact Hsame.
  - destruct (decide (k' = k)) as [->|Hne].
    + rewrite lookup_insert_eq. assert (e0 = e) by congruence. subst e0.
      eexists. split; [reflexivity|]. cbn. repeat split; eauto.
      exists []. symmetry. apply app_nil_r.
    + rewrite lookup_insert_ne, He by congruence. exact Hsame.
  - destruct (decide (k' = k)) as [->|Hne].
    + rewrite lookup_insert_eq. assert (e0 = e) by congruence. subst e0.
      eexists. split; [reflexivity|]. cbn. repeat split; eauto.
      exists []. symmetry. apply app_nil_r.
    + rewrite lookup_insert_ne, He by congruence. exact Hsame.
Qed.

(** C8: over any call, from a state whose registry keys were all handed out
    by the counter, an entry the registry held is either still there with
    the same device and with receive and transmit collections that extend
    the old ones at the end (every old offset refers to the same object), or
    it is gone because the call was [uhd_usrp_free] on its index; and
    freeing a streamer handle, of either kind, leaves the whole process
    state, registry included, as it was and only nulls the handle
    pointer. *)
Theorem streamer_collections_only_grow (c : api_call L) (g : state L) :
  registry_fresh g ->
  (forall k e, usrp_ptrs g !! k = Some e ->
     match usrp_ptrs (after (run_call c g)) !! k with
     | Some e' =>
         ptr e' = ptr e
         /\ (exists more, rx_streamers e' = rx_streamers e ++ more)
         /\ (exists more, tx_streamers e' = tx_streamers e ++ more)
         /\ (forall i x, rx_streamers e !! i = Some x -> rx_streamers e' !! i = Some x)
         /\ (forall i x, tx_streamers e !! i = Some x -> tx_streamers e' !! i = Some x)
     | None => exists h, c = usrp_free (Some h) /\ k = usrp_index h
     end)
  /\ (forall h, after (run_call (rx_streamer_free h) g) = g
                /\ handle_error (run_call (rx_streamer_free h) g) = None)
  /\ (forall h, after (run_call (tx_streamer_free h) g) = g
                /\ handle_error (run_call (tx_streamer_free h) g) = None).
Proof.
  intros Hfresh. split; [|split; intros h; split; reflexivity].
  intros k e He.
  assert (Hkeep : forall m, registry_grows g m ->
    match m !! k with
    | Some e' =>
        ptr e' = ptr e
        /\ (exists more, rx_streamers e' = rx_streamers e ++ more)
        /\ (exists more, tx_streamers e' = tx_streamers e ++ more)
        /\ (forall i x, rx_streamers e !! i = Some x -> rx_streamers e' !! i = Some x)
        /\ (forall i x, tx_streamers e !! i = Some x -> tx_streamers e' !! i = Some x)
    | None => exists h, c = usrp_free (Some h) /\ k = usrp_index h
    end).
  { intros m Hm.
    destruct (registry_grows_entry g m k e Hfresh Hm He)
      as (e' & -> & Hp & [rx Hrx] & [tx Htx]).
    split; [exact Hp|]. split; [eauto|]. split; [eauto|].
    rewrite Hrx, Htx. split; intros i x Hi; apply lookup_app_l_Some; exact Hi. }
  pose proof (run_call_registry c g) as Hc.
  destruct c as [| | | | | | | | | |[h|]| | | | | | | | | |]; try (apply Hkeep; exact Hc).
  destruct Hc as [-> | ->]; [|apply Hkeep; constructor].
  destruct (decide (k = usrp_index h)) as [->|Hne].
  - rewrite lookup_delete_eq. eauto.
  - rewrite lookup_delete_ne by congruence. apply Hkeep with (m := usrp_ptrs g). constructor.
Qed.

(** X5: that every registry key was handed out by the counter is an
    invariant of the calls that return, while the counter does not wrap. *)
Theorem registry_fresh_preserved (c : api_call L) (g : state L) :
  registry_fresh g -> usrp_counter g + 1 < 2 ^ SIZE_WIDTH ->
  status (run_call c g) ≠ Undefined ->
  registry_fresh (after (run_call c g)).
Proof.
  intros Hfresh Hc.
  assert (Hins : forall (m : gmap N (usrp_ptr L)) k e n,
    (forall j, is_Some (m !! j) -> j < n) -> is_Some (m !! k) ->
    forall j, is_Some (<[k := e]> m !! j) -> j < n).
  { intros m k e n Hm Hk j Hj. destruct (decide (k = j)) as [->|Hne].
    - apply Hm, Hk.
    - rewrite lookup_insert_ne in Hj by exact Hne. apply Hm, Hj. }
  destruct c; unfold_calls; run_prog; cbn.
  all: repeat (case_match; simplify_eq; cbn in * ).
  all: intros Hst; try (exfalso; apply Hst; reflexivity); try exact Hfresh.
  all: unfold registry_fresh in *; cbn [usrp_counter usrp_ptrs].
  all: try (erewrite alter_as_insert by eassumption; apply Hins; eauto; fail).
  - rewrite size_t_incr_small by exact Hc. intros j Hj.
    destruct (decide (usrp_counter g = j)) as [<-|Hne]; [lia|].
    rewrite lookup_insert_ne in Hj by exact Hne. specialize (Hfresh j Hj). lia.
  - rewrite size_t_incr_small by exact Hc. intros j Hj.
    specialize (Hfresh j Hj). lia.
  - intros j Hj.
    match type of Hj with
    | is_Some (delete ?k _ !! _) => destruct (decide (k = j)) as [<-|Hne]
    end.
    + rewrite lookup_delete_eq in Hj. destruct Hj as [? [=]].
    + rewrite lookup_delete_ne in Hj by exact Hne. apply Hfresh, Hj.
  - match goal with
    | H : alter _ ?k ?m !! ?k = None, H' : ?m !! ?k = Some _ |- _ =>
        rewrite lookup_alter_eq, H' in H; discriminate
    end.
  - match goal with
    | H : alter _ ?k ?m !! ?k = None, H' : ?m !! ?k = Some _ |- _ =>
        rewrite lookup_alter_eq, H' in H; discriminate
    end.
Qed.

(** The calls of [api_call] at the boundary: a call whose handle resolves
    returns a status, and a fault thrown by native code comes back as the
    status it is classified into, its text saved exactly by the calls
    wrapped in the error-saving macro. *)
Lemma api_calls_caught (c : api_call L) (g : state L) :
  (resolves c g -> exists e, status (run_call c g) = Returned e)
  /\ (forall f, Thrown f ∈ events (run_call c g) ->
        status (run_call c g) = Returned (error_from_fault f)
        /\ error_from_fault f ≠ UHD_ERROR_NONE
        /\ handle_error (run_call c g)
           = if saves_error c then Some (what f) else given_error c).
Proof.
  split.
  - unfold resolves, rx_resolves, tx_resolves, device_resolves.
    destruct c; unfold_calls; run_prog; cbn.
    all: intros Hres.
    all: repeat (case_match; simplify_eq; cbn in * ).
    all: try (eexists; reflexivity).
    all: try (destruct Hres as [? ->]; discriminate).
    all: try (destruct Hres as [? [=]]; fail).
    all: try (destruct Hres as (? & ? & ? & ?); simplify_eq; fail).
    all: try (destruct Hres as [?|(? & ? & ? & ?)]; simplify_eq; fail).
  - intros f. destruct c; unfold_calls; run_prog; cbn.
    all: repeat (case_match; simplify_eq; cbn in * ).
    all: intros Hin; decompose_list_elem_of; simplify_eq.
    all: repeat split; try reflexivity; apply error_from_fault_fails.
Qed.

End Calls.

(** ** Lock discipline *)

Section Locks.
Context {L : native_layer}.

(** C10, the form the code keeps: each of the registry mutexes (creation,
    destruction, stream acquisition) is taken first thing and given back
    last thing of a call that returns, with no other lock event in between;
    so the forwarded native call (device construction during create, native
    streamer construction during attach) is entered while the mutex is
    held. *)
Theorem registry_lock_spans_the_call (c : api_call L) (g : state L) (m : mutex) :
  registry_lock c = Some m ->
  status (run_call c g) ≠ Undefined ->
  exists mid,
    events (run_call c g) = Acquire m :: mid ++ [Release m]
    /\ forallb (fun ev => negb (is_lock_event ev)) mid = true
    /\ (forall nc, forwards_to c g = Some nc ->
          Forwarded nc ∈ mid
          /\ forwards_outside_locks [] (events (run_call c g)) = false).
Proof.
  unfold registry_lock, forwards_to.
  destruct c; intros Hm; simplify_eq; unfold_calls; run_prog; cbn.
  all: repeat (case_match; simplify_eq; cbn in * ).
  all: intros Hst; try (exfalso; apply Hst; reflexivity).
  all: try match goal with
       | H : alter _ ?k ?m !! ?k = None, H' : ?m !! ?k = Some _ |- _ =>
           rewrite lookup_alter_eq, H' in H; discriminate
       end.
  all: match goal with
       | |- exists mid, _ :: ?l = _ /\ _ => exists (removelast l)
       end; cbn; split; [reflexivity|]; split; [reflexivity|].
  all: intros nc Hnc; simplify_eq.
  all: split; [set_solver|reflexivity].
Qed.

End Locks.

(** ** Strings across the boundary *)

Lemma until_nul_app (s r : list ascii) : NUL ∉ s -> until_nul (s ++ NUL :: r) = s.
Proof.
  induction s as [|c s IH]; intros Hs; cbn.
  - destruct (decide (NUL = NUL)); [reflexivity|contradiction].
  - destruct (decide (c = NUL)) as [->|Hc]; [exfalso; apply Hs; left|].
    f_equal. apply IH. intros Hin. apply Hs. right. exact Hin.
Qed.

Lemma until_nul_c_str (s : std_string) : NUL ∉ s -> until_nul (c_str s) = s.
Proof. intros Hs. unfold c_str. apply until_nul_app, Hs. Qed.

Lemma until_nul_no_nul (src : list ascii) : NUL ∉ until_nul src.
Proof.
  induction src as [|c src IH]; cbn; [apply not_elem_of_nil|].
  destruct (decide (c = NUL)) as [->|Hc]; [apply not_elem_of_nil|].
  intros [Heq|Hin]%elem_of_cons; [congruence|contradiction].
Qed.

(** [strncpy] writes the first [n] chars and nothing else. *)
Lemma strncpy_frame (dst : buffer) (src : list ascii) (n : N) :
  drop (N.to_nat n) (strncpy dst src n) = drop (N.to_nat n) dst.
Proof.
  unfold strncpy. set (copied := take (N.to_nat n) (until_nul src)).
  assert (Hlen : (length copied <= N.to_nat n)%nat).
  { subst copied. rewrite length_take. lia. }
  rewrite app_assoc. rewrite drop_app_length'; [reflexivity|].
  rewrite length_app, length_replicate. lia.
Qed.

Lemma memset_frame (dst : buffer) (c : ascii) (n : N) :
  drop (N.to_nat n) (memset dst c n) = drop (N.to_nat n) dst.
Proof.
  unfold memset. rewrite drop_app_length'; [reflexivity|]. symmetry. apply length_replicate.
Qed.

(** The first [n] chars after [strncpy]: the text when it is shorter than
    [n], padded with [NUL]; otherwise its first [n] chars and no [NUL]. *)
Lemma strncpy_written (dst : buffer) (src : list ascii) (n : N) :
  take (N.to_nat n) (strncpy dst src n)
  = take (N.to_nat n) (until_nul src)
    ++ replicate (N.to_nat n - length (take (N.to_nat n) (until_nul src)))%nat NUL.
Proof.
  unfold strncpy. set (copied := take (N.to_nat n) (until_nul src)).
  assert (Hlen : (length copied <= N.to_nat n)%nat).
  { subst copied. rewrite length_take. lia. }
  rewrite app_assoc. rewrite take_app_length'; [reflexivity|].
  rewrite length_app, length_replicate. lia.
Qed.

(** A terminator lies within the first [n] chars exactly when the text is
    shorter than [n]. *)
Lemma strncpy_terminated_iff (dst : buffer) (src : list ascii) (n : N) :
  NUL ∈ take (N.to_nat n) (strncpy dst src n)
  <-> (length (until_nul src) < N.to_nat n)%nat.
Proof.
  rewrite strncpy_written. rewrite length_take. split.
  - intros [Hin|Hin]%elem_of_app.
    + apply elem_of_take in Hin as (i & Hi & _).
      exfalso. apply (until_nul_no_nul src). eapply list_elem_of_lookup_2, Hi.
    + apply elem_of_replicate in Hin as [_ Hn]. lia.
  - intros Hlt. apply elem_of_app. right. apply elem_of_replicate. split; [reflexivity|lia].
Qed.

Lemma strncpy_fits (dst : buffer) (s : std_string) (n : N) :
  NUL ∉ s -> (length s < N.to_nat n)%nat ->
  until_nul (strncpy dst (c_str s) n) = s.
Proof.
  intros Hs Hlen. unfold strncpy. rewrite until_nul_c_str by exact Hs.
  rewrite take_ge by lia.
  destruct (N.to_nat n - length s)%nat as [|k] eqn:Hk; [lia|].
  cbn [replicate]. rewrite <- app_comm_cons. apply until_nul_app, Hs.
Qed.

(** The loop of the list-valued getters builds the comma-separated text. *)
Lemma fold_left_join (names : list std_string) (acc : std_string) :
  fold_left (fun acc name => (acc ++ name) ++ [COMMA]) names acc
  = acc ++ concat (map (fun name => name ++ [COMMA]) names).
Proof.
  revert acc. induction names as [|name names IH]; intros acc; cbn.
  - symmetry. apply app_nil_r.
  - rewrite IH. rewrite <- !app_assoc. reflexivity.
Qed.

Lemma concat_commas_joined (name : std_string) (names : list std_string) :
  concat (map (fun name => name ++ [COMMA]) (name :: names))
  = joined (name :: names) ++ [COMMA].
Proof.
  revert name. induction names as [|name' names IH]; intros name.
  - cbn. rewrite app_nil_r. reflexivity.
  - cbn [map concat] in *. rewrite IH. cbn [joined].
    rewrite <- !app_assoc. reflexivity.
Qed.

Lemma join_foreach_joined (names : list std_string) : join_foreach names = joined names.
Proof.
  unfold join_foreach. rewrite fold_left_join. cbn [app].
  destruct names as [|name names]; [reflexivity|].
  replace (0 <? vector_size (name :: names)) with true
    by (symmetry; apply N.ltb_lt; unfold vector_size; cbn [length]; lia).
  rewrite concat_commas_joined, size_after_push_back.
  unfold vector_size. rewrite Nat2N.id. apply take_app_length.
Qed.

Lemma split_on_comma_field (s : std_string) : COMMA ∉ s -> split_on_comma s = [s].
Proof.
  induction s as [|c s IH]; intros Hs; [reflexivity|]. cbn.
  destruct (decide (c = COMMA)) as [->|Hc]; [exfalso; apply Hs; left|].
  rewrite IH; [reflexivity|]. intros Hin. apply Hs. right. exact Hin.
Qed.

Lemma split_on_comma_app (s rest : std_string) :
  COMMA ∉ s -> split_on_comma (s ++ COMMA :: rest) = s :: split_on_comma rest.
Proof.
  induction s as [|c s IH]; intros Hs; cbn.
  - destruct (decide (COMMA = COMMA)); [reflexivity|contradiction].
  - destruct (decide (c = COMMA)) as [->|Hc]; [exfalso; apply Hs; left|].
    rewrite IH; [reflexivity|]. intros Hin. apply Hs. right. exact Hin.
Qed.

Lemma split_on_comma_joined (name : std_string) (names : list std_string) :
  Forall (fun n => COMMA ∉ n) (name :: names) ->
  split_on_comma (joined (name :: names)) = name :: names.
Proof.
  revert name. induction names as [|name' names IH]; intros name Hall.
  - cbn. apply split_on_comma_field. inversion Hall; assumption.
  - cbn [joined]. inversion Hall as [|? ? Hname Hrest]; subst.
    rewrite split_on_comma_app by exact Hname. f_equal. apply IH, Hrest.
Qed.

Lemma joined_no_nul (names : list std_string) :
  Forall (fun n => NUL ∉ n) names -> NUL ∉ joined names.
Proof.
  induction names as [|name names IH]; intros Hall; [apply not_elem_of_nil|].
  inversion Hall as [|? ? Hname Hrest]; subst.
  destruct names as [|name' names]; [exact Hname|].
  cbn [joined]. intros [Hin|Hin]%elem_of_app; [contradiction|].
  apply elem_of_cons in Hin as [Heq|Hin]; [discriminate|].
  apply IH in Hrest. contradiction.
Qed.

(** Reading back what a list-valued getter wrote, for a buffer longer than
    the text and names free of commas and terminators. *)
Lemma read_list_round_trip (dst : buffer) (names : list std_string) (n : N) :
  Forall (fun name => (COMMA ∉ name) /\ (NUL ∉ name)) names ->
  (length (joined names) < N.to_nat n)%nat ->
  let out := strncpy (memset dst NUL n) (c_str (join_foreach names)) n in
  until_nul out = joined names
  /\ read_list out (vector_size names) = names.
Proof.
  intros Hall Hlen. cbv zeta. rewrite join_foreach_joined.
  assert (Hnul : NUL ∉ joined names).
  { apply joined_no_nul. eapply Forall_impl; [exact Hall|]. cbn. tauto. }
  unfold read_list. rewrite strncpy_fits by assumption. split; [reflexivity|].
  destruct names as [|name names]; [reflexivity|].
  rewrite split_on_comma_joined.
  - unfold vector_size. rewrite Nat2N.id. apply firstn_all.
  - eapply Forall_impl; [exact Hall|]. cbn. tauto.
Qed.

Section ListQueries.
Context {L : native_layer}.

Lemma uhd_usrp_get_time_sources_ok (g : state L) (h : uhd_usrp) (mboard n : N)
    (buf : buffer) (num : N) (e : usrp_ptr L) (dev : multi_usrp L)
    (names : list std_string) (w : world L) :
  usrp_ptrs g !! usrp_index h = Some e -> ptr e = Some dev ->
  get_time_sources L dev mboard (hw g) = (Ok names, w) ->
  uhd_usrp_get_time_sources mboard n (mk_store g (h, (buf, num)) []) =
    (Returned UHD_ERROR_NONE,
     mk_store (mk_state (usrp_counter g) (usrp_ptrs g) w)
       (h, (strncpy (memset buf NUL n) (c_str (join_foreach names)) n, vector_size names))
       [Forwarded call_get_time_sources]).
Proof.
  intros He Hp Hn. unfold uhd_usrp_get_time_sources.
  run_with ltac:(rewrite ?He, ?Hp, ?Hn). reflexivity.
Qed.

Lemma uhd_usrp_get_rx_gain_names_ok (g : state L) (h : uhd_usrp) (chan n : N)
    (buf : buffer) (num : N) (e : usrp_ptr L) (dev : multi_usrp L)
    (names : list std_string) (w : world L) :
  usrp_ptrs g !! usrp_index h = Some e -> ptr e = Some dev ->
  get_rx_gain_names L dev chan (hw g) = (Ok names, w) ->
  uhd_usrp_get_rx_gain_names chan n (mk_store g (h, (buf, num)) []) =
    (Returned UHD_ERROR_NONE,
     mk_store (mk_state (usrp_counter g) (usrp_ptrs g) w)
       (h, (strncpy (memset buf NUL n) (c_str (join_foreach names)) n, vector_size names))
       [Forwarded call_get_rx_gain_names]).
Proof.
  intros He Hp Hn. unfold uhd_usrp_get_rx_gain_names.
  run_with ltac:(rewrite ?He, ?Hp, ?Hn). reflexivity.
Qed.

Lemma read_back_cases (out : buffer) (count : N) (names : list std_string) :
  Forall (fun name => (COMMA ∉ name) /\ (NUL ∉ name)) names ->
  until_nul out = joined names ->
  (names = [] -> until_nul out = [])
  /\ (forall name, names = [name] -> COMMA ∉ until_nul out).
Proof.
  intros Hall Hout. split.
  - intros ->. exact Hout.
  - intros name ->. rewrite Hout. cbn. inversion Hall as [|? ? [Hc _] _]. exact Hc.
Qed.

(** C7, the form the code keeps: for a device handle that resolves, a
    native list whose elements hold neither a comma nor a terminator, and a
    buffer longer than the comma-separated text, [uhd_usrp_get_time_sources]
    and [uhd_usrp_get_rx_gain_names] succeed, the count written is the
    number of elements, and splitting the buffer's C string on commas and
    keeping that many fields gives back the elements in order; no element
    gives the empty string and count 0, one element gives a string without
    a comma. *)
Theorem list_query_round_trip (g : state L) (h : uhd_usrp) (e : usrp_ptr L)
    (dev : multi_usrp L) (buf : buffer) (strbuffer_len num : N) :
  usrp_ptrs g !! usrp_index h = Some e -> ptr e = Some dev ->
  (forall mboard names w,
     get_time_sources L dev mboard (hw g) = (Ok names, w) ->
     Forall (fun name => (COMMA ∉ name) /\ (NUL ∉ name)) names ->
     (length (joined names) < N.to_nat strbuffer_len)%nat ->
     let r := uhd_usrp_get_time_sources mboard strbuffer_len
                (mk_store g (h, (buf, num)) []) in
     r.1 = Returned UHD_ERROR_NONE
     /\ (loc r.2).2.2 = vector_size names
     /\ read_list (loc r.2).2.1 (loc r.2).2.2 = names
     /\ (names = [] -> until_nul (loc r.2).2.1 = [])
     /\ (forall name, names = [name] -> COMMA ∉ until_nul (loc r.2).2.1))
  /\ (forall chan names w,
     get_rx_gain_names L dev chan (hw g) = (Ok names, w) ->
     Forall (fun name => (COMMA ∉ name) /\ (NUL ∉ name)) names ->
     (length (joined names) < N.to_nat strbuffer_len)%nat ->
     let r := uhd_usrp_get_rx_gain_names chan strbuffer_len
                (mk_store g (h, (buf, num)) []) in
     r.1 = Returned UHD_ERROR_NONE
     /\ (loc r.2).2.2 = vector_size names
     /\ read_list (loc r.2).2.1 (loc r.2).2.2 = names
     /\ (names = [] -> until_nul (loc r.2).2.1 = [])
     /\ (forall name, names = [name] -> COMMA ∉ until_nul (loc r.2).2.1)).
Proof.
  intros He Hp. split.
  - intros mboard names w Hn Hall Hlen. cbv zeta.
    rewrite (uhd_usrp_get_time_sources_ok _ _ _ _ _ _ _ _ _ _ He Hp Hn).
    cbn [fst snd loc].
    destruct (read_list_round_trip buf names strbuffer_len Hall Hlen) as [Hout Hread].
    split; [reflexivity|]. split; [reflexivity|]. split; [exact Hread|].
    apply (read_back_cases _ (vector_size names) names Hall Hout).
  - intros chan names w Hn Hall Hlen. cbv zeta.
    rewrite (uhd_usrp_get_rx_gain_names_ok _ _ _ _ _ _ _ _ _ _ He Hp Hn).
    cbn [fst snd loc].
    destruct (read_list_round_trip buf names strbuffer_len Hall Hlen) as [Hout Hread].
    split; [reflexivity|]. split; [reflexivity|]. split; [exact Hread|].
    apply (read_back_cases _ (vector_size names) names Hall Hout).
Qed.

End ListQueries.

(** ** On the bench *)

Lemma bench_one_device_made :
  after (run_call (usrp_make None []) bench_initial) = bench_one_device.
Proof. vm_compute. reflexivity. Qed.

Lemma bench_attached_made :
  after (run_call (usrp_get_rx_stream bench_usrp fc32_args bench_rx_fresh) bench_one_device)
  = bench_attached.
Proof. vm_compute. reflexivity. Qed.

(** C1, on the code: a streamer handle outlives its device.  After create,
    attach and [uhd_usrp_free], the registry is empty;
    [uhd_rx_streamer_num_channels] on the streamer handle then does not
    return INVALID_DEVICE: the lookup inserts a default-constructed entry
    under the erased index and indexes its empty collection, which is
    undefined.  Likewise [uhd_usrp_get_master_clock_rate] on an index the
    registry never held inserts a default entry and dereferences its null
    device pointer. *)
Theorem stale_handle_lookup_inserts_default :
  let s1 := uhd_usrp_make (L := bench_layer) [] (mk_store bench_initial None []) in
  let s2 := uhd_usrp_get_rx_stream bench_usrp fc32_args
              (mk_store (glob s1.2) bench_rx_fresh []) in
  let s3 := uhd_usrp_free (mk_store (glob s2.2) (loc s1.2) []) in
  let s4 := uhd_rx_streamer_num_channels (mk_store (glob s3.2) (loc s2.2, 9) []) in
  let s5 := uhd_usrp_get_master_clock_rate (L := bench_layer) 0
              (mk_store bench_initial (bench_usrp, 5) []) in
  s1.1 = Returned UHD_ERROR_NONE /\ loc s1.2 = Some bench_usrp
  /\ s2.1 = Returned UHD_ERROR_NONE /\ loc s2.2 = bench_rx_attached
  /\ s3.1 = Returned UHD_ERROR_NONE /\ loc s3.2 = None
  /\ usrp_ptrs (glob s3.2) = ∅
  /\ s4.1 = Undefined
  /\ usrp_ptrs (glob s4.2) = {[ 0 := usrp_ptr_default ]}
  /\ trace s4.2 = [Structural 0]
  /\ loc s4.2 = (bench_rx_attached, 9)
  /\ s5.1 = Undefined
  /\ usrp_ptrs (glob s5.2) = {[ 0 := usrp_ptr_default ]}
  /\ loc s5.2 = (bench_usrp, 5).
Proof. vm_compute. repeat split. Qed.

(** C3, on the code: a text as long as the buffer fills it to the last char.
    [uhd_usrp_last_error] with a three-char message and
    [uhd_usrp_get_pp_string] with a four-char description, each into a
    buffer of exactly that capacity, return success and leave no terminator
    within the capacity. *)
Theorem full_buffer_has_no_terminator :
  let r := uhd_usrp_last_error (L := bench_layer) (mk_uhd_usrp 0 (lit "abc")) 3
             (mk_store bench_one_device (lit "zzz") []) in
  let p := uhd_usrp_get_pp_string (L := bench_layer) 4
             (mk_store bench_one_device (bench_usrp, lit "zzzz") []) in
  r.1 = Returned UHD_ERROR_NONE
  /\ loc r.2 = lit "abc"
  /\ (NUL ∉ take 3 (loc r.2))
  /\ p.1 = Returned UHD_ERROR_NONE
  /\ (loc p.2).2 = lit "B200"
  /\ (NUL ∉ take 4 (loc p.2).2).
Proof.
  cbv zeta. repeat split; try (vm_compute; reflexivity).
  all: by_decide.
Qed.

(** C6 fails on the code as stated: attach on a live device whose native
    stream construction throws returns the failure status, yet the text of
    the fault is in neither handle's [last_error]. *)
Lemma attach_fault_is_not_saved :
  let r := run_call (L := bench_layer)
             (usrp_get_rx_stream bench_usrp sc8_args bench_rx_fresh) bench_one_device in
  (Thrown bad_format ∈ events r)
  /\ status r = Returned UHD_ERROR_RUNTIME
  /\ handle_error r = Some []
  /\ handle_error r ≠ Some (what bad_format)
  /\ last_error bench_usrp ≠ what bad_format.
Proof.
  cbv zeta. repeat split; try (vm_compute; reflexivity).
  all: by_decide.
Qed.

(** C7 fails on the code as stated: a single gain name that holds a comma
    comes back as two fields, the first of which is not the name, and the
    output of one element contains the delimiter; a name that holds a
    terminator is cut short. *)
Lemma comma_in_name_breaks_round_trip :
  let r := uhd_usrp_get_rx_gain_names (L := bench_layer) 1 32
             (mk_store bench_one_device (bench_usrp, (bench_buffer, 0)) []) in
  let q := uhd_usrp_get_rx_gain_names (L := bench_layer) 2 32
             (mk_store bench_one_device (bench_usrp, (bench_buffer, 0)) []) in
  (get_rx_gain_names bench_layer 0 1 1).1 = Ok [lit "LNA,x"]
  /\ r.1 = Returned UHD_ERROR_NONE
  /\ (loc r.2).2.2 = 1
  /\ until_nul (loc r.2).2.1 = lit "LNA,x"
  /\ (COMMA ∈ until_nul (loc r.2).2.1)
  /\ read_list (loc r.2).2.1 (loc r.2).2.2 = [lit "LNA"]
  /\ read_list (loc r.2).2.1 (loc r.2).2.2 ≠ [lit "LNA,x"]
  /\ q.1 = Returned UHD_ERROR_NONE
  /\ (loc q.2).2.2 = 2
  /\ read_list (loc q.2).2.1 (loc q.2).2.2 = [lit "TIA"; lit "mix"].
Proof.
  cbv zeta. repeat split; try (vm_compute; reflexivity).
  all: by_decide.
Qed.

(** C10 fails on the code as stated: creation enters the native device
    construction after taking the creation mutex and before giving it back,
    and so does attach with the native stream construction. *)
Lemma native_call_under_registry_lock :
  let r := run_call (L := bench_layer) (usrp_make None []) bench_initial in
  let a := run_call (L := bench_layer)
             (usrp_get_rx_stream bench_usrp fc32_args bench_rx_fresh) bench_one_device in
  events r = [Acquire _usrp_make_mutex; Forwarded call_multi_usrp_make;
              Structural 0; Release _usrp_make_mutex]
  /\ forwards_outside_locks [] (events r) = false
  /\ events a = [Acquire _usrp_get_rx_stream_mutex; Forwarded call_get_rx_stream;
                 Structural 0; Release _usrp_get_rx_stream_mutex]
  /\ forwards_outside_locks [] (events a) = false.
Proof. vm_compute. repeat split. Qed.

(** ** The theorems at work on the bench *)

(** Three creations from the initial state, the second of which fails. *)
Lemma uhd_usrp_make_indices_increase_witness :
  usrp_counter bench_initial + N.of_nat (length [[]; lit "x"; []]) <= 2 ^ SIZE_WIDTH
  /\ let rs := (make_run (L := bench_layer) [[]; lit "x"; []] bench_initial).1 in
     let g' := (make_run (L := bench_layer) [[]; lit "x"; []] bench_initial).2 in
     StronglySorted N.lt (usrp_index <$> handles_of rs)
     /\ NoDup (usrp_index <$> handles_of rs)
     /\ Forall (fun cr =>
          match cr_native cr with
          | Ok d => cr_status cr = Returned UHD_ERROR_NONE
                    /\ exists h, cr_handle cr = Some h
                         /\ usrp_ptrs g' !! usrp_index h = Some (mk_usrp_ptr (Some d) [] [])
          | Throw f => cr_status cr = Returned (error_from_fault f) /\ cr_handle cr = None
          end) rs.
Proof.
  split; [by_decide|].
  apply (uhd_usrp_make_indices_increase (L := bench_layer) [[]; lit "x"; []] bench_initial).
  by_decide.
Defined.

(** A failed creation after one device, followed by two creations. *)
Lemma uhd_usrp_make_failure_consumes_index_witness :
  multi_usrp_make bench_layer (lit "x") (hw bench_one_device) = (Throw no_devices_found, 1)
  /\ usrp_counter bench_one_device + 1 < 2 ^ SIZE_WIDTH
  /\ Forall (fun h => usrp_counter bench_one_device < usrp_index h)
       (handles_of
          (make_run [[]; []]
             (glob (uhd_usrp_make (L := bench_layer) (lit "x")
                      (mk_store bench_one_device None [])).2)).1).
Proof.
  split; [reflexivity|]. split; [by_decide|].
  apply (uhd_usrp_make_failure_consumes_index (L := bench_layer) bench_one_device
           (lit "x") None no_devices_found 1 [[]; []]);
    [reflexivity|by_decide|by_decide].
Defined.


(** Two devices, the first freed twice: the second call reads through the
    pointer the first one nulled. *)
Lemma uhd_usrp_free_erases_or_rejects_witness :
  let r := uhd_usrp_free (L := bench_layer) (mk_store bench_two_devices (Some bench_usrp) []) in
  let r2 := uhd_usrp_free (mk_store (glob r.2) (loc r.2) []) in
  r.1 = Returned UHD_ERROR_NONE
  /\ loc r.2 = None
  /\ usrp_ptrs (glob r.2) !! usrp_index bench_usrp = None
  /\ r2.1 = Undefined
  /\ trace r2.2 = [Acquire _usrp_free_mutex].
Proof.
  cbv zeta.
  pose proof (uhd_usrp_free_erases_or_rejects (L := bench_layer) bench_two_devices bench_usrp)
    as H.
  cbv zeta in H.
  assert (Hl : usrp_ptrs bench_two_devices !! usrp_index bench_usrp = Some bench_entry)
    by (vm_compute; reflexivity).
  rewrite Hl in H. destruct H as (H1 & H2 & H3 & _ & _ & _ & H7).
  split; [exact H1|]. split; [exact H2|]. split; [exact H3|].
  destruct (decide (delete (usrp_index bench_usrp) (usrp_ptrs bench_two_devices) = ∅))
    as [Hempty|_].
  - apply (f_equal (fun m => m !! 1)) in Hempty. vm_compute in Hempty. discriminate.
  - destruct H7 as (? & _ & _ & ?). split; assumption.
Defined.

(** A second attach keeps the first streamer at offset 0. *)
Lemma streamer_collections_only_grow_witness :
  registry_fresh bench_attached
  /\ match usrp_ptrs (after (run_call (L := bench_layer)
                        (usrp_get_rx_stream bench_usrp fc32_args bench_rx_fresh)
                        bench_attached)) !! 0 with
     | Some e' =>
         ptr e' = Some 0
         /\ (exists more, rx_streamers e' = [1] ++ more)
         /\ (exists more, tx_streamers e' = [] ++ more)
         /\ (forall i x, [1] !! i = Some x -> rx_streamers e' !! i = Some x)
         /\ (forall i x, [] !! i = Some x -> tx_streamers e' !! i = Some x)
     | None => exists h, usrp_get_rx_stream (L := bench_layer) bench_usrp fc32_args
                           bench_rx_fresh
                         = usrp_free (Some h) /\ 0 = usrp_index h
     end.
Proof.
  assert (Hfresh : registry_fresh bench_attached).
  { intros k [e He]. unfold bench_attached in *. cbn in *.
    destruct (decide (k = 0)) as [->|Hk]; [lia|].
    rewrite lookup_singleton_ne in He by congruence. discriminate. }
  split; [exact Hfresh|].
  apply (proj1 (streamer_collections_only_grow (L := bench_layer)
                  (usrp_get_rx_stream bench_usrp fc32_args bench_rx_fresh)
                  bench_attached Hfresh) 0 (mk_usrp_ptr (L := bench_layer) (Some 0) [1] [])).
  vm_compute. reflexivity.
Defined.

(** The three time sources of the bench, read back from 32 chars. *)
Lemma list_query_round_trip_witness :
  usrp_ptrs bench_one_device !! usrp_index bench_usrp
    = Some (mk_usrp_ptr (L := bench_layer) (Some 0) [] [])
  /\ let r := uhd_usrp_get_time_sources (L := bench_layer) 0 32
                (mk_store bench_one_device (bench_usrp, (bench_buffer, 0)) []) in
     r.1 = Returned UHD_ERROR_NONE
     /\ (loc r.2).2.2 = vector_size [lit "none"; lit "external"; lit "gpsdo"]
     /\ read_list (loc r.2).2.1 (loc r.2).2.2 = [lit "none"; lit "external"; lit "gpsdo"]
     /\ ([lit "none"; lit "external"; lit "gpsdo"] = [] -> until_nul (loc r.2).2.1 = [])
     /\ (forall name, [lit "none"; lit "external"; lit "gpsdo"] = [name] ->
           COMMA ∉ until_nul (loc r.2).2.1).
Proof.
  split; [vm_compute; reflexivity|].
  apply (proj1 (list_query_round_trip (L := bench_layer) bench_one_device bench_usrp
                  (mk_usrp_ptr (L := bench_layer) (Some 0) [] []) 0 bench_buffer 32 0
                  ltac:(vm_compute; reflexivity) eq_refl)
           0 [lit "none"; lit "external"; lit "gpsdo"] 1).
  - reflexivity.
  - repeat constructor; by_decide.
  - vm_compute. lia.
Defined.

(** Creation on the bench holds the creation mutex throughout. *)
Lemma registry_lock_spans_the_call_witness :
  registry_lock (L := bench_layer) (usrp_make None []) = Some _usrp_make_mutex
  /\ status (run_call (L := bench_layer) (usrp_make None []) bench_initial) ≠ Undefined
  /\ exists mid,
       events (run_call (L := bench_layer) (usrp_make None []) bench_initial)
         = Acquire _usrp_make_mutex :: mid ++ [Release _usrp_make_mutex]
       /\ forallb (fun ev => negb (is_lock_event ev)) mid = true
       /\ (forall nc, forwards_to (L := bench_layer) (usrp_make None []) bench_initial = Some nc ->
             Forwarded nc ∈ mid
             /\ forwards_outside_locks []
                  (events (run_call (L := bench_layer) (usrp_make None []) bench_initial)) = false).
Proof.
  split; [reflexivity|]. split; [vm_compute; discriminate|].
  apply (registry_lock_spans_the_call (L := bench_layer) (usrp_make None []) bench_initial
           _usrp_make_mutex); [reflexivity|vm_compute; discriminate].
Defined.

(** ** Further properties of the code *)

Section Further.
Context {L : native_layer}.


(** X2: the text of [last_error] is copied into at most [strbuffer_len]
    chars of the buffer, the rest of the caller's memory is untouched, and a
    terminator lies within those chars exactly when the text is shorter
    than [strbuffer_len]. *)
Theorem uhd_usrp_last_error_copy (g : state L) (h : uhd_usrp) (strbuffer_len : N)
    (error_out : buffer) :
  let r := uhd_usrp_last_error h strbuffer_len (mk_store g error_out []) in
  r.1 = Returned UHD_ERROR_NONE
  /\ glob r.2 = g
  /\ drop (N.to_nat strbuffer_len) (loc r.2) = drop (N.to_nat strbuffer_len) error_out
  /\ ((NUL ∈ take (N.to_nat strbuffer_len) (loc r.2))
      <-> (length (until_nul (c_str (last_error h))) < N.to_nat strbuffer_len)%nat).
Proof.
  cbv zeta. unfold uhd_usrp_last_error. run_prog.
  split; [reflexivity|]. split; [reflexivity|]. split.
  - rewrite strncpy_frame. apply memset_frame.
  - apply strncpy_terminated_iff.
Qed.

(** X3: [uhd_usrp_free] through a pointer that is already null, as a first
    [uhd_usrp_free] leaves it.  Over an empty registry nothing is read
    through the pointer: the call returns INVALID_DEVICE, changes nothing
    and gives the mutex back.  As soon as the registry holds an entry, the
    handle's index is read through the null pointer to compare it: no
    status comes back and the mutex stays held. *)
Theorem uhd_usrp_free_null_pointer (g : state L) (tr : list event) :
  (usrp_ptrs g = ∅ ->
     uhd_usrp_free (mk_store g None tr) =
       (Returned UHD_ERROR_INVALID_DEVICE,
        mk_store g None (tr ++ [Acquire _usrp_free_mutex; Release _usrp_free_mutex])))
  /\ (usrp_ptrs g ≠ ∅ ->
     uhd_usrp_free (mk_store g None tr) =
       (Undefined, mk_store g None (tr ++ [Acquire _usrp_free_mutex]))).
Proof.
  rewrite uhd_usrp_free_null.
  split; intros H; destruct (decide (usrp_ptrs g = ∅)); congruence.
Qed.

(** X4: [uhd_rx_streamer_make] takes no mutex, while [uhd_tx_streamer_make]
    holds its own around the allocation. *)
Theorem streamer_make_locks (g : state L) (indet_u indet_s : N)
    (rx : option uhd_rx_streamer) (tx : option uhd_tx_streamer) :
  trace (uhd_rx_streamer_make indet_u indet_s (mk_store g rx [])).2 = []
  /\ trace (uhd_tx_streamer_make indet_u indet_s (mk_store g tx [])).2
     = [Acquire _tx_streamer_make_mutex; Release _tx_streamer_make_mutex].
Proof. split; reflexivity. Qed.

End Further.


(** The initial state is fresh, and stays so over a creation. *)
Lemma registry_fresh_preserved_witness :
  registry_fresh bench_initial
  /\ registry_fresh
       (after (run_call (L := bench_layer) (usrp_make None []) bench_initial)).
Proof.
  assert (Hfresh : registry_fresh bench_initial).
  { intros k [e He]. unfold bench_initial, initial_state in He. cbn in He.
    rewrite lookup_empty in He. discriminate. }
  split; [exact Hfresh|].
  apply (registry_fresh_preserved (L := bench_layer) (usrp_make None []) bench_initial Hfresh);
    [by_decide|vm_compute; discriminate].
Defined.

(** ** How the calls compose *)

Section Composition.
Context {L : native_layer}.

(** X6: a call changes no registry entry but the one under its own index:
    the device index of the handle it is given or, for a creation, the value
    of the counter.  Every other key maps to what it mapped to, or stays
    absent. *)
Theorem call_changes_only_its_own_entry (c : api_call L) (g : state L) (j : N) :
  own_index c g ≠ Some j ->
  usrp_ptrs (after (run_call c g)) !! j = usrp_ptrs g !! j.
Proof.
  unfold own_index.
  destruct c; unfold_calls; run_prog; cbn.
  all: intros Hj.
  all: repeat (case_match; simplify_eq; cbn in * ).
  all: rewrite ?lookup_insert_ne, ?lookup_delete_ne, ?lookup_alter_ne by congruence.
  all: reflexivity.
Qed.

(** X7: the counter moves in [uhd_usrp_make] only, by one, whether the
    creation succeeds or not; no other call, [uhd_usrp_free] included, ever
    changes it. *)
Theorem only_creation_moves_the_counter (c : api_call L) (g : state L) :
  usrp_counter (after (run_call c g))
  = match c with
    | usrp_make _ _ => size_t_incr (usrp_counter g)
    | _ => usrp_counter g
    end.
Proof.
  destruct c; unfold_calls; run_prog; cbn.
  all: repeat (case_match; simplify_eq; cbn in * ).
  all: reflexivity.
Qed.

(** X8: a freed index is not handed out again.  After [uhd_usrp_free] of a
    handle whose index the counter has passed, no creation of any later run
    returns that index and the registry holds nothing under it, while the
    counter does not wrap. *)
Theorem freed_index_is_not_reused (g : state L) (h : uhd_usrp) (e : usrp_ptr L)
    (argss : list std_string) :
  usrp_ptrs g !! usrp_index h = Some e ->
  usrp_index h < usrp_counter g ->
  usrp_counter g + N.of_nat (length argss) <= 2 ^ SIZE_WIDTH ->
  let g1 := glob (uhd_usrp_free (mk_store g (Some h) [])).2 in
  Forall (fun h' => usrp_index h' ≠ usrp_index h) (handles_of (make_run argss g1).1)
  /\ usrp_ptrs (make_run argss g1).2 !! usrp_index h = None.
Proof.
  intros He Hlt Hfit. cbv zeta.
  rewrite (uhd_usrp_free_present _ _ _ _ He). cbn [snd glob].
  set (g1 := mk_state _ _ _).
  destruct (make_run_spec argss g1) as (Hrange & _ & _ & Hframe); [exact Hfit|].
  cbv zeta in *. split.
  - eapply Forall_impl; [exact Hrange|]. cbn. intros h' [Hge _] Heq. lia.
  - rewrite Hframe by (left; exact Hlt). subst g1. cbn. apply lookup_delete_eq.
Qed.

(** X9: create, then destroy.  When nothing sits under the counter's value,
    a successful [uhd_usrp_make] followed by [uhd_usrp_free] of the handle
    it returned brings the registry back to exactly what it was; the
    pointer is null again and the index is spent. *)
Theorem make_then_free_restores (g : state L) (a : std_string) (slot : option uhd_usrp)
    (d : multi_usrp L) (w : world L) :
  usrp_ptrs g !! usrp_counter g = None ->
  multi_usrp_make L a (hw g) = (Ok d, w) ->
  let s1 := uhd_usrp_make a (mk_store g slot []) in
  let s2 := uhd_usrp_free (mk_store (glob s1.2) (loc s1.2) []) in
  s1.1 = Returned UHD_ERROR_NONE
  /\ s2.1 = Returned UHD_ERROR_NONE
  /\ loc s2.2 = None
  /\ usrp_ptrs (glob s2.2) = usrp_ptrs g
  /\ usrp_counter (glob s2.2) = size_t_incr (usrp_counter g).
Proof.
  intros Habs Hn. cbv zeta.
  rewrite (uhd_usrp_make_ok _ _ _ _ _ _ Hn). cbn [fst snd glob loc].
  erewrite uhd_usrp_free_present by (cbn; apply lookup_insert_eq).
  cbn. repeat split. rewrite delete_insert_eq. apply delete_id, Habs.
Qed.

(** X10: destroying a device strands its streamers.  After a successful
    [uhd_usrp_free] the caller's pointer is null and no streamer handle of
    that device resolves any more, whatever its offset.  The streamer calls
    do not notice: [uhd_rx_streamer_num_channels], [uhd_rx_streamer_recv]
    and [uhd_tx_streamer_num_channels] through such a handle put a
    default-constructed entry back under the erased index and index its
    empty collection; no status comes back and the handle and the output
    are as they were. *)
Theorem free_invalidates_the_device (g : state L) (h : uhd_usrp) (e : usrp_ptr L) :
  usrp_ptrs g !! usrp_index h = Some e ->
  let r := uhd_usrp_free (mk_store g (Some h) []) in
  let g1 := glob r.2 in
  let back := <[usrp_index h := usrp_ptr_default]> (usrp_ptrs g1) in
  r.1 = Returned UHD_ERROR_NONE
  /\ loc r.2 = None
  /\ (forall h_s, rx_usrp_index h_s = usrp_index h -> ~ rx_resolves g1 h_s)
  /\ (forall h_s, tx_usrp_index h_s = usrp_index h -> ~ tx_resolves g1 h_s)
  /\ (forall h_s n, rx_usrp_index h_s = usrp_index h ->
        let r' := uhd_rx_streamer_num_channels (mk_store g1 (h_s, n) []) in
        r'.1 = Undefined /\ usrp_ptrs (glob r'.2) = back /\ loc r'.2 = (h_s, n))
  /\ (forall h_s samps timeout one_packet n, rx_usrp_index h_s = usrp_index h ->
        let r' := uhd_rx_streamer_recv samps timeout one_packet (mk_store g1 (h_s, n) []) in
        r'.1 = Undefined /\ usrp_ptrs (glob r'.2) = back /\ loc r'.2 = (h_s, n))
  /\ (forall h_s n, tx_usrp_index h_s = usrp_index h ->
        let r' := uhd_tx_streamer_num_channels (mk_store g1 (h_s, n) []) in
        r'.1 = Undefined /\ usrp_ptrs (glob r'.2) = back /\ loc r'.2 = (h_s, n)).
Proof.
  intros He. cbv zeta.
  rewrite (uhd_usrp_free_present _ _ _ _ He). cbn [fst snd glob loc].
  set (g1 := mk_state _ _ _).
  assert (Hgone : usrp_ptrs g1 !! usrp_index h = None) by apply lookup_delete_eq.
  split; [reflexivity|]. split; [reflexivity|]. split_and!.
  - intros h_s Hk (e' & x & He' & _). rewrite Hk, Hgone in He'. discriminate.
  - intros h_s Hk (e' & x & He' & _). rewrite Hk, Hgone in He'. discriminate.
  - intros h_s n Hk. unfold uhd_rx_streamer_num_channels.
    run_with ltac:(rewrite ?Hk, ?Hgone). repeat split.
  - intros h_s samps timeout one_packet n Hk. unfold uhd_rx_streamer_recv.
    run_with ltac:(rewrite ?Hk, ?Hgone). repeat split.
  - intros h_s n Hk. unfold uhd_tx_streamer_num_channels.
    run_with ltac:(rewrite ?Hk, ?Hgone). repeat split.
Qed.

End Composition.

(** On the bench: a creation leaves the entry of device 0 alone. *)
Lemma call_changes_only_its_own_entry_witness :
  own_index (L := bench_layer) (usrp_make None []) bench_one_device ≠ Some 0
  /\ usrp_ptrs (after (run_call (L := bench_layer) (usrp_make None []) bench_one_device)) !! 0
     = usrp_ptrs bench_one_device !! 0.
Proof.
  assert (H : own_index (L := bench_layer) (usrp_make None []) bench_one_device ≠ Some 0)
    by (vm_compute; discriminate).
  split; [exact H|].
  apply (call_changes_only_its_own_entry (L := bench_layer) (usrp_make None [])
           bench_one_device 0 H).
Defined.

(** Index 0, freed, does not come back in two further creations. *)
Lemma freed_index_is_not_reused_witness :
  let g1 := glob (uhd_usrp_free (mk_store bench_one_device (Some bench_usrp) [])).2 in
  Forall (fun h' => usrp_index h' ≠ usrp_index bench_usrp)
    (handles_of (make_run [[]; []] g1).1)
  /\ usrp_ptrs (make_run [[]; []] g1).2 !! usrp_index bench_usrp = None.
Proof.
  apply (freed_index_is_not_reused (L := bench_layer) bench_one_device bench_usrp
           bench_entry [[]; []]).
  - vm_compute. reflexivity.
  - vm_compute. reflexivity.
  - vm_compute. discriminate.
Defined.

(** Creation and destruction from the initial state. *)
Lemma make_then_free_restores_witness :
  let s1 := uhd_usrp_make (L := bench_layer) [] (mk_store bench_initial None []) in
  let s2 := uhd_usrp_free (mk_store (glob s1.2) (loc s1.2) []) in
  s1.1 = Returned UHD_ERROR_NONE
  /\ s2.1 = Returned UHD_ERROR_NONE
  /\ loc s2.2 = None
  /\ usrp_ptrs (glob s2.2) = usrp_ptrs bench_initial
  /\ usrp_counter (glob s2.2) = size_t_incr (usrp_counter bench_initial).
Proof.
  apply (make_then_free_restores (L := bench_layer) bench_initial [] None 0 1).
  - vm_compute. reflexivity.
  - reflexivity.
Defined.

(** The device with one attached streamer, destroyed. *)
Lemma free_invalidates_the_device_witness :
  let r := uhd_usrp_free (mk_store bench_attached (Some bench_usrp) []) in
  let r' := uhd_rx_streamer_recv (L := bench_layer) 256 1 false
              (mk_store (glob r.2) (bench_rx_attached, 9) []) in
  r.1 = Returned UHD_ERROR_NONE
  /\ loc r.2 = None
  /\ ~ rx_resolves (glob r.2) bench_rx_attached
  /\ r'.1 = Undefined
  /\ usrp_ptrs (glob r'.2) = <[0 := usrp_ptr_default]> (usrp_ptrs (glob r.2))
  /\ loc r'.2 = (bench_rx_attached, 9).
Proof.
  destruct (free_invalidates_the_device (L := bench_layer) bench_attached bench_usrp
              (mk_usrp_ptr (L := bench_layer) (Some 0) [1] []))
    as (Hst & Hnull & Hrx & _ & _ & Hrecv & _); [vm_compute; reflexivity|].
  cbv zeta. split; [exact Hst|]. split; [exact Hnull|].
  split; [apply Hrx; reflexivity|].
  apply (Hrecv bench_rx_attached 256 1 false 9). reflexivity.
Defined.

Lemma Forall_omap_some {A B} (f : A -> option B) (P : B -> Prop) (l : list A) :
  Forall (fun a => forall b, f a = Some b -> P b) l -> Forall P (omap f l).
Proof.
  induction 1 as [|a l Ha _ IH]; cbn; [constructor|].
  destruct (f a) as [b|] eqn:Hf; [constructor; auto|exact IH].
Qed.

Section AttachRuns.
Context {L : native_layer}.

Lemma attach_run_spec (h_u : uhd_usrp) (dev : multi_usrp L) (h_s : uhd_rx_streamer)
    (configs : list uhd_stream_args_t) :
  forall (g : state L) (e : usrp_ptr L),
    usrp_ptrs g !! usrp_index h_u = Some e -> ptr e = Some dev ->
    let rs := (attach_run h_u dev h_s configs g).1 in
    let g' := (attach_run h_u dev h_s configs g).2 in
    usrp_ptrs g' !! usrp_index h_u
      = Some (mk_usrp_ptr (Some dev) (rx_streamers e ++ built rs) (tx_streamers e))
    /\ Forall (fun a =>
         match at_native a with
         | Ok x =>
             at_status a = Returned UHD_ERROR_NONE
             /\ rx_usrp_index (at_handle a) = usrp_index h_u
             /\ vector_size (rx_streamers e) <= rx_streamer_index (at_handle a)
             /\ (rx_streamers e ++ built rs) !! N.to_nat (rx_streamer_index (at_handle a))
                = Some x
         | Throw f =>
             at_status a = Returned (error_from_fault f) /\ at_handle a = h_s
         end) rs
    /\ StronglySorted N.lt
         (rx_streamer_index <$>
            omap (fun a => if at_native a is Ok _ then Some (at_handle a) else None) rs).
Proof.
  induction configs as [|sa rest IH]; intros g e He Hp.
  - cbn. rewrite app_nil_r, <- Hp. destruct e. repeat split; auto; constructor.
  - cbn [attach_run].
    destruct (get_rx_stream L dev (stream_args_c_to_cpp sa) (hw g)) as [[x|f] w] eqn:Hn.
    + rewrite (uhd_usrp_get_rx_stream_ok _ _ _ _ _ _ _ _ _ He Hp Hn).
      cbn [fst snd glob loc]. set (g1 := mk_state _ _ w).
      set (e1 := mk_usrp_ptr (ptr e) (rx_streamers e ++ [x]) (tx_streamers e)).
      assert (He1 : usrp_ptrs g1 !! usrp_index h_u = Some e1) by apply lookup_insert_eq.
      destruct (IH g1 e1 He1 Hp) as (Hreg & Hall & Hsort).
      destruct (attach_run h_u dev h_s rest g1) as [rs g'] eqn:Hrun.
      cbn [fst snd] in *. subst e1. cbn [rx_streamers tx_streamers] in *.
      unfold built in *. cbn [omap at_native]. fold (built rs) in *.
      rewrite <- app_assoc in Hreg, Hall. cbn [app] in Hreg, Hall.
      split; [exact Hreg|]. split.
      * constructor.
        -- cbn. split; [reflexivity|]. split; [reflexivity|]. split; [lia|].
           unfold vector_size. rewrite Nat2N.id. apply list_lookup_middle. reflexivity.
        -- eapply Forall_impl; [exact Hall|]. intros a. cbn.
           destruct (at_native a); [|tauto].
           unfold vector_size. rewrite length_app. cbn [length].
           intros (? & ? & ? & ?). repeat split; auto. lia.
      * cbn [fmap list_fmap at_handle rx_streamer_index]. constructor; [exact Hsort|].
        apply Forall_fmap. apply Forall_omap_some. eapply Forall_impl; [exact Hall|].
        intros a. cbn. destruct (at_native a); [|discriminate].
        unfold vector_size. rewrite length_app. cbn [length].
        intros (_ & _ & Hge & _) b [= <-]. lia.
    + rewrite (uhd_usrp_get_rx_stream_throw _ _ _ _ _ _ _ _ _ He Hp Hn).
      cbn [fst snd glob loc]. set (g1 := mk_state _ _ w).
      assert (He1 : usrp_ptrs g1 !! usrp_index h_u = Some e) by exact He.
      destruct (IH g1 e He1 Hp) as (Hreg & Hall & Hsort).
      destruct (attach_run h_u dev h_s rest g1) as [rs g'] eqn:Hrun.
      cbn [fst snd] in *. unfold built in *. cbn [omap at_native]. fold (built rs) in *.
      split; [exact Hreg|]. split; [|exact Hsort].
      constructor; [|exact Hall]. cbn. split; reflexivity.
Qed.

(** X11: attaches in a row.  On a live device, a run of
    [uhd_usrp_get_rx_stream] calls leaves the entry's receive collection
    equal to the old one followed by the objects the native layer built, in
    order; every call whose object was built returned success and a handle
    with the device's index whose offset still refers to that object when
    the run is over; the offsets handed out increase strictly; a call whose
    construction threw returned the failure status and left its handle
    alone; the transmit collection and the device are as before. *)
Theorem attach_run_offsets_stay_valid (h_u : uhd_usrp) (dev : multi_usrp L)
    (h_s : uhd_rx_streamer) (configs : list uhd_stream_args_t) (g : state L)
    (e : usrp_ptr L) :
  usrp_ptrs g !! usrp_index h_u = Some e -> ptr e = Some dev ->
  let rs := (attach_run h_u dev h_s configs g).1 in
  let g' := (attach_run h_u dev h_s configs g).2 in
  usrp_ptrs g' !! usrp_index h_u
    = Some (mk_usrp_ptr (Some dev) (rx_streamers e ++ built rs) (tx_streamers e))
  /\ Forall (fun a =>
       match at_native a with
       | Ok x =>
           at_status a = Returned UHD_ERROR_NONE
           /\ RX_STREAMER (at_handle a) (mk_store g' () []) = (Val x, mk_store g' () [])
       | Throw f =>
           at_status a = Returned (error_from_fault f) /\ at_handle a = h_s
       end) rs
  /\ StronglySorted N.lt
       (rx_streamer_index <$>
          omap (fun a => if at_native a is Ok _ then Some (at_handle a) else None) rs).
Proof.
  intros He Hp. destruct (attach_run_spec h_u dev h_s configs g e He Hp)
    as (Hreg & Hall & Hsort).
  cbv zeta in *. split; [exact Hreg|]. split; [|exact Hsort].
  eapply Forall_impl; [exact Hall|]. intros a. cbn.
  destruct (at_native a); [|tauto]. intros (Hst & Hk & _ & Hx).
  split; [exact Hst|]. unfold RX_STREAMER.
  run_with ltac:(rewrite ?Hk, ?Hreg, ?Hx). reflexivity.
Qed.

End AttachRuns.

(** Three attaches on the bench, the second with a format the device refuses. *)
Lemma attach_run_offsets_stay_valid_witness :
  let configs := [fc32_args; sc8_args; fc32_args] in
  let rs := (attach_run (L := bench_layer) bench_usrp 0 bench_rx_fresh configs
               bench_one_device).1 in
  let g' := (attach_run (L := bench_layer) bench_usrp 0 bench_rx_fresh configs
               bench_one_device).2 in
  usrp_ptrs g' !! usrp_index bench_usrp
    = Some (mk_usrp_ptr (L := bench_layer) (Some 0) (rx_streamers bench_entry ++ built rs)
              (tx_streamers bench_entry))
  /\ Forall (fun a =>
       match at_native a with
       | Ok x =>
           at_status a = Returned UHD_ERROR_NONE
           /\ RX_STREAMER (at_handle a) (mk_store g' () []) = (Val x, mk_store g' () [])
       | Throw f =>
           at_status a = Returned (error_from_fault f) /\ at_handle a = bench_rx_fresh
       end) rs
  /\ StronglySorted N.lt
       (rx_streamer_index <$>
          omap (fun a => if at_native a is Ok _ then Some (at_handle a) else None) rs).
Proof.
  apply (attach_run_offsets_stay_valid (L := bench_layer) bench_usrp 0 bench_rx_fresh
           [fc32_args; sc8_args; fc32_args] bench_one_device bench_entry).
  - vm_compute. reflexivity.
  - reflexivity.
Defined.

(** ** The other getters *)

Ltac run_more :=
  unfold uhd_usrp_get_string, uhd_usrp_get_names, uhd_usrp_get_sensor,
    uhd_usrp_get_rx_info, uhd_usrp_get_tx_info, uhd_usrp_find,
    uhd_usrp_get_mboard_eeprom, uhd_usrp_set_mboard_eeprom,
    uhd_usrp_get_dboard_eeprom, uhd_usrp_set_dboard_eeprom,
    COPY_INFO_FIELD, dict_get, delete_ptr;
  run_prog.

Lemma strncpy_truncated (dst : buffer) (src : list ascii) (n : N) :
  (N.to_nat n <= length (until_nul src))%nat ->
  take (N.to_nat n) (strncpy dst src n) = take (N.to_nat n) (until_nul src).
Proof.
  intros Hlen. rewrite strncpy_written, length_take.
  replace (N.to_nat n - N.to_nat n `min` length (until_nul src))%nat with 0%nat by lia.
  apply app_nil_r.
Qed.

Section Getters.
Context {L : native_layer}.

Lemma uhd_usrp_get_names_ok (g : state L) (h : uhd_usrp)
    (native : multi_usrp L -> world L -> native_result (list std_string) * world L)
    (n : N) (buf : buffer) (num : N) (e : usrp_ptr L) (dev : multi_usrp L)
    (names : list std_string) (w : world L) :
  usrp_ptrs g !! usrp_index h = Some e -> ptr e = Some dev ->
  native dev (hw g) = (Ok names, w) ->
  uhd_usrp_get_names native n (mk_store g (h, (buf, num)) []) =
    (Returned UHD_ERROR_NONE,
     mk_store (mk_state (usrp_counter g) (usrp_ptrs g) w)
       (h, (strncpy (memset buf NUL n) (c_str (join_foreach names)) n, vector_size names))
       [Forwarded call_accessor]).
Proof.
  intros He Hp Hn. run_more. repeat (progress (rewrite ?He, ?Hp, ?Hn; cbn)). reflexivity.
Qed.

Lemma uhd_usrp_get_string_ok (g : state L) (h : uhd_usrp)
    (native : multi_usrp L -> world L -> native_result std_string * world L)
    (n : N) (buf : buffer) (e : usrp_ptr L) (dev : multi_usrp L)
    (text : std_string) (w : world L) :
  usrp_ptrs g !! usrp_index h = Some e -> ptr e = Some dev ->
  native dev (hw g) = (Ok text, w) ->
  uhd_usrp_get_string native n (mk_store g (h, buf) []) =
    (Returned UHD_ERROR_NONE,
     mk_store (mk_state (usrp_counter g) (usrp_ptrs g) w)
       (h, strncpy buf (c_str text) n) [Forwarded call_accessor]).
Proof.
  intros He Hp Hn. run_more. repeat (progress (rewrite ?He, ?Hp, ?Hn; cbn)). reflexivity.
Qed.

(** X12: the round trip of every list-valued getter.  For a handle that
    resolves, names free of commas and terminators, and a buffer longer than
    their comma-separated text, the getter succeeds, the count is the number
    of names, the buffer's C string is the comma-separated text, and
    splitting it on commas into that many fields gives the names back in
    order. *)
Theorem get_names_round_trip (g : state L) (h : uhd_usrp)
    (native : multi_usrp L -> world L -> native_result (list std_string) * world L)
    (strbuffer_len : N) (buf : buffer) (num : N) (e : usrp_ptr L) (dev : multi_usrp L)
    (names : list std_string) (w : world L) :
  usrp_ptrs g !! usrp_index h = Some e -> ptr e = Some dev ->
  native dev (hw g) = (Ok names, w) ->
  Forall (fun name => (COMMA ∉ name) /\ (NUL ∉ name)) names ->
  (length (joined names) < N.to_nat strbuffer_len)%nat ->
  let r := uhd_usrp_get_names native strbuffer_len (mk_store g (h, (buf, num)) []) in
  r.1 = Returned UHD_ERROR_NONE
  /\ (loc r.2).2.2 = vector_size names
  /\ until_nul (loc r.2).2.1 = joined names
  /\ read_list (loc r.2).2.1 (loc r.2).2.2 = names.
Proof.
  intros He Hp Hn Hall Hlen. cbv zeta.
  rewrite (uhd_usrp_get_names_ok _ _ _ _ _ _ _ _ _ _ He Hp Hn). cbn [fst snd loc].
  destruct (read_list_round_trip buf names strbuffer_len Hall Hlen) as [Hout Hread].
  repeat split; assumption.
Qed.

(** X13: a list-valued getter into a buffer that is too small.  When the
    comma-separated text has at least [strbuffer_len] chars, the getter
    still succeeds and still reports the full number of names, the first
    [strbuffer_len] chars of the buffer are the first [strbuffer_len] chars
    of the text with no terminator among them, and the memory past them is
    untouched. *)
Theorem get_names_truncates (g : state L) (h : uhd_usrp)
    (native : multi_usrp L -> world L -> native_result (list std_string) * world L)
    (strbuffer_len : N) (buf : buffer) (num : N) (e : usrp_ptr L) (dev : multi_usrp L)
    (names : list std_string) (w : world L) :
  usrp_ptrs g !! usrp_index h = Some e -> ptr e = Some dev ->
  native dev (hw g) = (Ok names, w) ->
  Forall (fun name => NUL ∉ name) names ->
  (N.to_nat strbuffer_len <= length (joined names))%nat ->
  let r := uhd_usrp_get_names native strbuffer_len (mk_store g (h, (buf, num)) []) in
  r.1 = Returned UHD_ERROR_NONE
  /\ (loc r.2).2.2 = vector_size names
  /\ take (N.to_nat strbuffer_len) (loc r.2).2.1
     = take (N.to_nat strbuffer_len) (joined names)
  /\ (NUL ∉ take (N.to_nat strbuffer_len) (loc r.2).2.1)
  /\ drop (N.to_nat strbuffer_len) (loc r.2).2.1 = drop (N.to_nat strbuffer_len) buf.
Proof.
  intros He Hp Hn Hall Hlen. cbv zeta.
  rewrite (uhd_usrp_get_names_ok _ _ _ _ _ _ _ _ _ _ He Hp Hn). cbn [fst snd loc].
  rewrite join_foreach_joined.
  assert (Hnul : NUL ∉ joined names) by (apply joined_no_nul, Hall).
  assert (Hcut : take (N.to_nat strbuffer_len)
                   (strncpy (memset buf NUL strbuffer_len) (c_str (joined names)) strbuffer_len)
                 = take (N.to_nat strbuffer_len) (joined names)).
  { rewrite strncpy_truncated; rewrite until_nul_c_str by exact Hnul; [reflexivity|exact Hlen]. }
  split; [reflexivity|]. split; [reflexivity|]. split; [exact Hcut|]. split.
  - rewrite Hcut. intros Hin. apply Hnul. eapply elem_of_take in Hin as (i & Hi & _).
    eapply list_elem_of_lookup_2, Hi.
  - rewrite strncpy_frame. apply memset_frame.
Qed.

(** X14: a textual getter.  For a handle that resolves and a text free of
    terminators: when the text is shorter than [strbuffer_len], the buffer's
    C string is the text; when it is not, the first [strbuffer_len] chars
    are those of the text and hold no terminator; in both cases the getter
    returns success and the memory past [strbuffer_len] is untouched. *)
Theorem get_string_copies_or_truncates (g : state L) (h : uhd_usrp)
    (native : multi_usrp L -> world L -> native_result std_string * world L)
    (strbuffer_len : N) (buf : buffer) (e : usrp_ptr L) (dev : multi_usrp L)
    (text : std_string) (w : world L) :
  usrp_ptrs g !! usrp_index h = Some e -> ptr e = Some dev ->
  native dev (hw g) = (Ok text, w) ->
  NUL ∉ text ->
  let r := uhd_usrp_get_string native strbuffer_len (mk_store g (h, buf) []) in
  r.1 = Returned UHD_ERROR_NONE
  /\ drop (N.to_nat strbuffer_len) (loc r.2).2 = drop (N.to_nat strbuffer_len) buf
  /\ ((length text < N.to_nat strbuffer_len)%nat -> until_nul (loc r.2).2 = text)
  /\ ((N.to_nat strbuffer_len <= length text)%nat ->
        take (N.to_nat strbuffer_len) (loc r.2).2 = take (N.to_nat strbuffer_len) text
        /\ (NUL ∉ take (N.to_nat strbuffer_len) (loc r.2).2)).
Proof.
  intros He Hp Hn Hnul. cbv zeta.
  rewrite (uhd_usrp_get_string_ok _ _ _ _ _ _ _ _ _ He Hp Hn). cbn [fst snd loc].
  split; [reflexivity|]. split; [apply strncpy_frame|]. split.
  - intros Hlen. apply strncpy_fits; assumption.
  - intros Hlen.
    assert (Hcut : take (N.to_nat strbuffer_len) (strncpy buf (c_str text) strbuffer_len)
                   = take (N.to_nat strbuffer_len) text).
    { rewrite strncpy_truncated; rewrite until_nul_c_str by exact Hnul; [reflexivity|exact Hlen]. }
    split; [exact Hcut|]. rewrite Hcut. intros Hin. apply Hnul.
    eapply elem_of_take in Hin as (i & Hi & _). eapply list_elem_of_lookup_2, Hi.
Qed.

(** X15: a getter whose native call throws writes no output.  For a handle
    that resolves, the textual and the list-valued getters return the
    failure status of the fault, leave the buffer and the count exactly as
    they were, store the text of the fault in the handle's [last_error] and
    leave registry and counter alone. *)
Theorem getter_fault_writes_no_output (g : state L) (h : uhd_usrp)
    (e : usrp_ptr L) (dev : multi_usrp L) (f : native_fault) (w : world L)
    (strbuffer_len : N) (buf : buffer) (num : N) :
  usrp_ptrs g !! usrp_index h = Some e -> ptr e = Some dev ->
  (forall native, native dev (hw g) = (Throw f, w) ->
     uhd_usrp_get_string native strbuffer_len (mk_store g (h, buf) []) =
       (Returned (error_from_fault f),
        mk_store (mk_state (usrp_counter g) (usrp_ptrs g) w)
          (mk_uhd_usrp (usrp_index h) (what f), buf)
          [Forwarded call_accessor; Thrown f]))
  /\ (forall native, native dev (hw g) = (Throw f, w) ->
     uhd_usrp_get_names native strbuffer_len (mk_store g (h, (buf, num)) []) =
       (Returned (error_from_fault f),
        mk_store (mk_state (usrp_counter g) (usrp_ptrs g) w)
          (mk_uhd_usrp (usrp_index h) (what f), (buf, num))
          [Forwarded call_accessor; Thrown f])).
Proof.
  intros He Hp. split; intros native Hn; run_more;
    repeat (progress (rewrite ?He, ?Hp, ?Hn; cbn)); reflexivity.
Qed.

End Getters.

(** The time sources of the bench through the generic list getter. *)
Lemma get_names_round_trip_witness :
  let names := [lit "none"; lit "external"; lit "gpsdo"] in
  let r := uhd_usrp_get_names (L := bench_layer)
             (fun dev => get_time_sources bench_layer dev 0) 32
             (mk_store bench_one_device (bench_usrp, (bench_buffer, 0)) []) in
  r.1 = Returned UHD_ERROR_NONE
  /\ (loc r.2).2.2 = vector_size names
  /\ until_nul (loc r.2).2.1 = joined names
  /\ read_list (loc r.2).2.1 (loc r.2).2.2 = names.
Proof.
  apply (get_names_round_trip (L := bench_layer) bench_one_device bench_usrp
           (fun dev => get_time_sources bench_layer dev 0) 32 bench_buffer 0
           bench_entry 0 [lit "none"; lit "external"; lit "gpsdo"] 1).
  - vm_compute. reflexivity.
  - reflexivity.
  - reflexivity.
  - repeat constructor; by_decide.
  - vm_compute. lia.
Defined.

(** The same into eight chars. *)
Lemma get_names_truncates_witness :
  let names := [lit "none"; lit "external"; lit "gpsdo"] in
  let r := uhd_usrp_get_names (L := bench_layer)
             (fun dev => get_time_sources bench_layer dev 0) 8
             (mk_store bench_one_device (bench_usrp, (bench_buffer, 0)) []) in
  r.1 = Returned UHD_ERROR_NONE
  /\ (loc r.2).2.2 = vector_size names
  /\ take (N.to_nat 8) (loc r.2).2.1 = take (N.to_nat 8) (joined names)
  /\ (NUL ∉ take (N.to_nat 8) (loc r.2).2.1)
  /\ drop (N.to_nat 8) (loc r.2).2.1 = drop (N.to_nat 8) bench_buffer.
Proof.
  apply (get_names_truncates (L := bench_layer) bench_one_device bench_usrp
           (fun dev => get_time_sources bench_layer dev 0) 8 bench_buffer 0
           bench_entry 0 [lit "none"; lit "external"; lit "gpsdo"] 1).
  - vm_compute. reflexivity.
  - reflexivity.
  - reflexivity.
  - repeat constructor; by_decide.
  - vm_compute. lia.
Defined.

(** The description of the bench device into four chars. *)
Lemma get_string_copies_or_truncates_witness :
  let r := uhd_usrp_get_string (L := bench_layer) (get_pp_string bench_layer) 4
             (mk_store bench_one_device (bench_usrp, bench_buffer) []) in
  r.1 = Returned UHD_ERROR_NONE
  /\ drop (N.to_nat 4) (loc r.2).2 = drop (N.to_nat 4) bench_buffer
  /\ ((length (lit "B200") < N.to_nat 4)%nat -> until_nul (loc r.2).2 = lit "B200")
  /\ ((N.to_nat 4 <= length (lit "B200"))%nat ->
        take (N.to_nat 4) (loc r.2).2 = take (N.to_nat 4) (lit "B200")
        /\ (NUL ∉ take (N.to_nat 4) (loc r.2).2)).
Proof.
  apply (get_string_copies_or_truncates (L := bench_layer) bench_one_device bench_usrp
           (get_pp_string bench_layer) 4 bench_buffer bench_entry 0 (lit "B200") 1).
  - vm_compute. reflexivity.
  - reflexivity.
  - reflexivity.
  - by_decide.
Defined.

(** A getter whose native call finds no device. *)
Lemma getter_fault_writes_no_output_witness :
  uhd_usrp_get_string (L := bench_layer) (fun dev w => (Throw no_devices_found, w)) 8
    (mk_store bench_one_device (bench_usrp, bench_buffer) [])
  = (Returned (error_from_fault no_devices_found),
     mk_store (mk_state (usrp_counter bench_one_device) (usrp_ptrs bench_one_device) 1)
       (mk_uhd_usrp (usrp_index bench_usrp) (what no_devices_found), bench_buffer)
       [Forwarded call_accessor; Thrown no_devices_found]).
Proof.
  apply (proj1 (getter_fault_writes_no_output (L := bench_layer) bench_one_device
                  bench_usrp bench_entry 0 no_devices_found 1 8 bench_buffer 0
                  ltac:(vm_compute; reflexivity) eq_refl)
           (fun dev w => (Throw no_devices_found, w)) eq_refl).
Defined.

(** ** Sensors, info structs and device discovery *)

(* Runs an info getter to its end under the equations on the dictionary
   that the context holds. *)
Ltac info_getter d He Hp Hn :=
  run_more; repeat (progress (rewrite ?He, ?Hp, ?Hn; cbn));
  repeat (case_match; simplify_eq; cbn in * ); try discriminate;
  unfold dict_value; repeat match goal with H : d _ = _ |- _ => rewrite !H end;
  repeat split; reflexivity.

Section OtherCalls.
Context {L : native_layer}.

(** X16: the sensor getters delete the old value before they read the new
    one.  For a handle that resolves: when the native read succeeds, an
    output handle that was null or live holds the new value; when the native
    read throws, the failure status is returned, the text of the fault is
    saved, and the output handle is left pointing to the value that was just
    deleted, so that the next sensor call on that output handle deletes it a
    second time, whatever device and native getter it is made with. *)
Theorem sensor_getter_deletes_before_it_reads {V : Type} (g : state L) (h : uhd_usrp)
    (e : usrp_ptr L) (dev : multi_usrp L) :
  usrp_ptrs g !! usrp_index h = Some e -> ptr e = Some dev ->
  (forall native (v : V) w out, native dev (hw g) = (Ok v, w) -> out <> Dangling ->
     let r := uhd_usrp_get_sensor native (mk_store g (h, out) []) in
     r.1 = Returned UHD_ERROR_NONE /\ loc r.2 = (h, Live v))
  /\ (forall native f w (old : V), native dev (hw g) = (Throw f, w) ->
     let r := uhd_usrp_get_sensor native (mk_store g (h, Live old) []) in
     r.1 = Returned (error_from_fault f)
     /\ loc r.2 = (mk_uhd_usrp (usrp_index h) (what f), Dangling)
     /\ forall (native' : multi_usrp L -> world L -> native_result V * world L)
            (g' : state L) (h' : uhd_usrp),
          (uhd_usrp_get_sensor native' (mk_store g' (h', (loc r.2).2) [])).1 = Undefined).
Proof.
  intros He Hp. split.
  - intros native v w out Hn Hout. cbv zeta.
    destruct out as [|old|]; [| |congruence]; run_more;
      repeat (progress (rewrite ?He, ?Hp, ?Hn; cbn)); split; reflexivity.
  - intros native f w old Hn. cbv zeta. run_more.
    repeat (progress (rewrite ?He, ?Hp, ?Hn; cbn)).
    split; [reflexivity|]. split; [reflexivity|]. intros native' g' h'. reflexivity.
Qed.

(** X17: [uhd_usrp_get_rx_info] writes field by field and stops at the first
    key the native dictionary lacks.  For a handle that resolves: if the
    dictionary has all seven keys the call succeeds and every field is the
    C string of its value; if the first [k] keys are there and the next one
    throws, the call returns the failure status, saves the fault's text, has
    overwritten the first [k] fields and leaves the remaining ones as they
    were. *)
Theorem rx_info_written_up_to_first_missing_key (g : state L) (h : uhd_usrp)
    (native : multi_usrp L -> N -> world L -> native_result dict * world L) (chan : N)
    (e : usrp_ptr L) (dev : multi_usrp L) (d : dict) (w : world L) (info : RxInfo.t) :
  usrp_ptrs g !! usrp_index h = Some e -> ptr e = Some dev ->
  native dev chan (hw g) = (Ok d, w) ->
  let r := uhd_usrp_get_rx_info native chan (mk_store g (h, info) []) in
  (dict_has d rx_info_keys = true ->
     r.1 = Returned UHD_ERROR_NONE
     /\ (loc r.2).1 = h
     /\ rx_info_fields (loc r.2).2 = (fun key => strdup (c_str (dict_value d key))) <$> rx_info_keys)
  /\ (forall k key f,
       dict_has d (take k rx_info_keys) = true ->
       rx_info_keys !! k = Some key -> d key = Throw f ->
       r.1 = Returned (error_from_fault f)
       /\ (loc r.2).1 = mk_uhd_usrp (usrp_index h) (what f)
       /\ take k (rx_info_fields (loc r.2).2)
           = (fun key => strdup (c_str (dict_value d key))) <$> take k rx_info_keys
       /\ drop k (rx_info_fields (loc r.2).2) = drop k (rx_info_fields info)).
Proof.
  intros He Hp Hn. cbv zeta. split.
  - intros Hall. cbn in Hall. info_getter d He Hp Hn.
  - intros k key f Hall Hkey Hf.
    do 7 (destruct k as [|k]; [cbn in Hall, Hkey; simplify_eq; info_getter d He Hp Hn|]).
    discriminate Hkey.
Qed.

(** X18: [uhd_usrp_get_tx_info] writes field by field and stops at the first
    key the native dictionary lacks, as its receive twin does: all seven
    fields on success; on a missing key the failure status, the first [k]
    fields overwritten and the remaining ones as they were. *)
Theorem tx_info_written_up_to_first_missing_key (g : state L) (h : uhd_usrp)
    (native : multi_usrp L -> N -> world L -> native_result dict * world L) (chan : N)
    (e : usrp_ptr L) (dev : multi_usrp L) (d : dict) (w : world L) (info : TxInfo.t) :
  usrp_ptrs g !! usrp_index h = Some e -> ptr e = Some dev ->
  native dev chan (hw g) = (Ok d, w) ->
  let r := uhd_usrp_get_tx_info native chan (mk_store g (h, info) []) in
  (dict_has d tx_info_keys = true ->
     r.1 = Returned UHD_ERROR_NONE
     /\ (loc r.2).1 = h
     /\ tx_info_fields (loc r.2).2 = (fun key => strdup (c_str (dict_value d key))) <$> tx_info_keys)
  /\ (forall k key f,
       dict_has d (take k tx_info_keys) = true ->
       tx_info_keys !! k = Some key -> d key = Throw f ->
       r.1 = Returned (error_from_fault f)
       /\ (loc r.2).1 = mk_uhd_usrp (usrp_index h) (what f)
       /\ take k (tx_info_fields (loc r.2).2)
           = (fun key => strdup (c_str (dict_value d key))) <$> take k tx_info_keys
       /\ drop k (tx_info_fields (loc r.2).2) = drop k (tx_info_fields info)).
Proof.
  intros He Hp Hn. cbv zeta. split.
  - intros Hall. cbn in Hall. info_getter d He Hp Hn.
  - intros k key f Hall Hkey Hf.
    do 7 (destruct k as [|k]; [cbn in Hall, Hkey; simplify_eq; info_getter d He Hp Hn|]).
    discriminate Hkey.
Qed.

(** X19: [uhd_usrp_find] keeps [*num_found] in step with the stored list.
    If they agreed before the call, or the call succeeds, the count is the
    size of the list the handle holds afterwards; on success that list is
    what the native search returned and [last_error] is not touched; on a
    fault neither the list nor the count is written and the fault's text is
    saved; the device registry and the counter are never touched; the call
    starts by taking [_usrp_find_mutex] and ends by giving it back, fault or
    not. *)
Theorem uhd_usrp_find_keeps_count_in_step {D : Type}
    (device_find : std_string -> world L -> native_result (list D) * world L)
    (args : std_string) (g : state L) (a : uhd_device_addrs D) (n : N) :
  let r := uhd_usrp_find device_find args (mk_store g (a, n) []) in
  (n = vector_size (device_addrs_cpp a) \/ r.1 = Returned UHD_ERROR_NONE ->
     (loc r.2).2 = vector_size (device_addrs_cpp (loc r.2).1))
  /\ (r.1 = Returned UHD_ERROR_NONE ->
       (device_find args (hw g)).1 = Ok (device_addrs_cpp (loc r.2).1)
       /\ addrs_last_error (loc r.2).1 = addrs_last_error a)
  /\ (forall f, (device_find args (hw g)).1 = Throw f ->
       r.1 = Returned (error_from_fault f)
       /\ loc r.2 = (mk_uhd_device_addrs (device_addrs_cpp a) (what f), n))
  /\ usrp_ptrs (glob r.2) = usrp_ptrs g
  /\ usrp_counter (glob r.2) = usrp_counter g
  /\ head (trace r.2) = Some (Acquire _usrp_find_mutex)
  /\ last (trace r.2) = Some (Release _usrp_find_mutex).
Proof.
  cbv zeta. run_more. destruct (device_find args (hw g)) as [[found|f] w]; cbn;
    split_and!; try reflexivity.
  all: try (intros _; reflexivity).
  - intros _. split; reflexivity.
  - intros f' [=].
  - intros [->|[= Hok]]; [reflexivity|]. destruct (proj1 (error_from_fault_fails f) Hok).
  - intros [= Hok]. destruct (proj1 (error_from_fault_fails f) Hok).
  - intros f' [= <-]. split; reflexivity.
Qed.

End OtherCalls.

(** ** EEPROM paths *)

Lemma decimal_inj (m n : N) : decimal m = decimal n -> m = n.
Proof.
  unfold decimal. intros H.
  apply (f_equal string_of_list_ascii) in H.
  rewrite !string_of_list_ascii_of_string in H.
  apply (f_equal NilZero.uint_of_string) in H.
  assert (Hnn : forall k, N.to_uint k <> Decimal.Nil).
  { intros [|p]; [discriminate|]. apply DecimalPos.Unsigned.to_uint_nonnil. }
  rewrite !NilZero.usu in H by apply Hnn.
  injection H as H. apply DecimalN.Unsigned.to_uint_inj, H.
Qed.

Lemma decimal_no_slash (n : N) : SLASH ∉ decimal n.
Proof.
  unfold decimal.
  assert (Hd : forall u, SLASH ∉ list_ascii_of_string (NilEmpty.string_of_uint u)).
  { induction u; cbn; [apply not_elem_of_nil|..];
      (apply not_elem_of_cons; split; [discriminate|exact IHu]). }
  destruct (N.to_uint n) eqn:Hu; [|unfold NilZero.string_of_uint; apply Hd..].
  cbn. apply not_elem_of_cons. split; [discriminate|apply not_elem_of_nil].
Qed.

Lemma first_separator (x : ascii) (l1 l2 r1 r2 : list ascii) :
  x ∉ l1 -> x ∉ l2 -> l1 ++ x :: r1 = l2 ++ x :: r2 -> l1 = l2 /\ r1 = r2.
Proof.
  revert l2. induction l1 as [|c l1 IH]; intros [|c2 l2] H1 H2 Heq; cbn in Heq.
  - injection Heq as ->. split; reflexivity.
  - injection Heq as <- _. exfalso. apply H2. left.
  - injection Heq as -> _. exfalso. apply H1. left.
  - injection Heq as -> Heq. apply not_elem_of_cons in H1 as [_ H1].
    apply not_elem_of_cons in H2 as [_ H2].
    destruct (IH l2 H1 H2 Heq) as [-> ->]. split; reflexivity.
Qed.

Lemma mboard_eeprom_path_inj (m1 m2 : N) :
  mboard_eeprom_path m1 = mboard_eeprom_path m2 -> m1 = m2.
Proof.
  unfold mboard_eeprom_path. intros H.
  apply app_inv_head, app_inv_tail in H. apply decimal_inj, H.
Qed.

Lemma dboard_eeprom_path_inj (m1 m2 : N) (s1 s2 u1 u2 : std_string) :
  SLASH ∉ s1 -> SLASH ∉ s2 ->
  dboard_eeprom_path m1 s1 u1 = dboard_eeprom_path m2 s2 u2 ->
  m1 = m2 /\ s1 = s2 /\ u1 = u2.
Proof.
  intros H1 H2 H. unfold dboard_eeprom_path in H.
  apply app_inv_head in H.
  change (lit "/dboards/") with (SLASH :: lit "dboards/") in H.
  rewrite <- !app_comm_cons in H.
  apply first_separator in H as [Hm H]; try apply decimal_no_slash.
  apply app_inv_head in H. change (lit "/") with [SLASH] in H. cbn [app] in H.
  apply first_separator in H as [Hs H]; try assumption.
  apply app_inv_tail in H. split_and!; [apply decimal_inj, Hm|exact Hs|exact H].
Qed.

(* The common end of the two set-then-get proofs, once the paths are
   abstracted to [p1] and [p2]. *)
Ltac set_then_get get1 get0 p1 p2 He Hp Hset Hget Hinj Hsame :=
  run_prog; repeat (progress (rewrite ?He, ?Hp, ?Hset; cbn));
  split; [reflexivity|]; split; [reflexivity|];
  let r := fresh "r" in let r' := fresh "r" in
  let Heq := fresh "Heq" in let Hne := fresh "Hne" in
  destruct get1 as [r ?]; destruct get0 as [r' ?]; cbn in Hget;
  destruct (decide (p1 = p2)) as [Heq|Hne];
  [ subst r; split; [intros _; split; reflexivity|];
    let Hm := fresh in intros Hm; destruct (Hm (Hinj Heq))
  | subst r'; split; [let Hm := fresh in intros Hm; destruct (Hne (Hsame Hm))|];
    intros _; destruct r; split; reflexivity ].

(** X20: which EEPROM nodes the paths name.  Different motherboard numbers
    give different motherboard paths.  Daughterboard paths are distinct for
    distinct (motherboard, slot, unit) as long as the slots hold no slash;
    a slot that does can name the node of another slot: the slash may sit in
    the slot or in the unit. *)
Theorem eeprom_paths_are_distinct :
  (forall m1 m2, mboard_eeprom_path m1 = mboard_eeprom_path m2 -> m1 = m2)
  /\ (forall m1 m2 s1 s2 u1 u2, (SLASH ∉ s1) -> (SLASH ∉ s2) ->
        dboard_eeprom_path m1 s1 u1 = dboard_eeprom_path m2 s2 u2 ->
        m1 = m2 /\ s1 = s2 /\ u1 = u2)
  /\ (forall m s u1 u2,
        dboard_eeprom_path m (s ++ SLASH :: u1) u2 = dboard_eeprom_path m s (u1 ++ SLASH :: u2)).
Proof.
  split_and!.
  - apply mboard_eeprom_path_inj.
  - apply dboard_eeprom_path_inj.
  - intros m s u1 u2. unfold dboard_eeprom_path. cbn.
    rewrite <- !app_assoc. reflexivity.
Qed.

Section Eeprom.
Context {L : native_layer} {E : Type}.
Variable tree_get : multi_usrp L -> std_string -> world L -> native_result E * world L.
Variable tree_set :
  multi_usrp L -> std_string -> E -> world L -> native_result unit * world L.

(** X21: writing the EEPROM of one motherboard and reading one back.  Over a
    property tree that returns at a path what was last set there and is
    otherwise unaffected by a set, for a handle that resolves: after a
    successful [uhd_usrp_set_mboard_eeprom] on motherboard [m1],
    [uhd_usrp_get_mboard_eeprom] on [m2] returns the value written when
    [m1 = m2], and exactly what it would have returned without the write
    when [m1 <> m2]. *)
Theorem mboard_eeprom_set_then_get (g : state L) (h : uhd_usrp) (e : usrp_ptr L)
    (dev : multi_usrp L) (v out : E) (m1 m2 : N) (w1 : world L) :
  usrp_ptrs g !! usrp_index h = Some e -> ptr e = Some dev ->
  (forall p q x w w', tree_set dev p x w = (Ok (), w') ->
     (tree_get dev q w').1 = if decide (p = q) then Ok x else (tree_get dev q w).1) ->
  tree_set dev (mboard_eeprom_path m1) v (hw g) = (Ok (), w1) ->
  let r1 := uhd_usrp_set_mboard_eeprom tree_set m1 (mk_store g (h, v) []) in
  let r2 := uhd_usrp_get_mboard_eeprom tree_get m2 (mk_store (glob r1.2) (h, out) []) in
  let r0 := uhd_usrp_get_mboard_eeprom tree_get m2 (mk_store g (h, out) []) in
  r1.1 = Returned UHD_ERROR_NONE
  /\ loc r1.2 = (h, v)
  /\ (m1 = m2 -> r2.1 = Returned UHD_ERROR_NONE /\ loc r2.2 = (h, v))
  /\ (m1 <> m2 -> r2.1 = r0.1 /\ loc r2.2 = loc r0.2).
Proof.
  intros He Hp Hlaw Hset. cbv zeta.
  pose proof (Hlaw _ (mboard_eeprom_path m2) _ _ _ Hset) as Hget.
  pose proof (mboard_eeprom_path_inj m1 m2) as Hinj.
  assert (Hsame : m1 = m2 -> mboard_eeprom_path m1 = mboard_eeprom_path m2)
    by (intros ->; reflexivity).
  unfold uhd_usrp_set_mboard_eeprom, uhd_usrp_get_mboard_eeprom. cbv zeta.
  generalize dependent (mboard_eeprom_path m2). intros p2 Hget Hinj Hsame.
  generalize dependent (mboard_eeprom_path m1). intros p1 Hset Hget Hinj Hsame.
  set_then_get (tree_get dev p2 w1) (tree_get dev p2 (hw g)) p1 p2 He Hp Hset Hget Hinj Hsame.
Qed.


End Eeprom.

(** Motherboard 0 written, motherboard 1 read. *)
Lemma mboard_eeprom_set_then_get_witness :
  let g := bench_tree in
  let h := mk_uhd_usrp 0 [] in
  let r1 := uhd_usrp_set_mboard_eeprom bench_tree_set 0 (mk_store g (h, 7) []) in
  let r2 := uhd_usrp_get_mboard_eeprom bench_tree_get 1 (mk_store (glob r1.2) (h, 5) []) in
  let r0 := uhd_usrp_get_mboard_eeprom bench_tree_get 1 (mk_store g (h, 5) []) in
  r1.1 = Returned UHD_ERROR_NONE
  /\ loc r1.2 = (h, 7)
  /\ (0 = 1 -> r2.1 = Returned UHD_ERROR_NONE /\ loc r2.2 = (h, 7))
  /\ (0 <> 1 -> r2.1 = r0.1 /\ loc r2.2 = loc r0.2).
Proof.
  apply (mboard_eeprom_set_then_get (L := tree_layer) bench_tree_get bench_tree_set
           bench_tree (mk_uhd_usrp 0 []) (mk_usrp_ptr (L := tree_layer) (Some ()) [] []) ()
           7 5 0 1 (fun q => if decide (mboard_eeprom_path 0 = q) then 7 else 0)).
  - reflexivity.
  - reflexivity.
  - intros p q x w w' [= <-]. cbn. destruct (decide (p = q)); reflexivity.
  - reflexivity.
Defined.


(** A sensor read that throws on the bench. *)
Lemma sensor_getter_deletes_before_it_reads_witness :
  let r := uhd_usrp_get_sensor (L := bench_layer)
             (fun dev w => (Throw (A := N) recv_timeout, w))
             (mk_store bench_one_device (bench_usrp, Live 3) []) in
  r.1 = Returned (error_from_fault recv_timeout)
  /\ loc r.2 = (mk_uhd_usrp (usrp_index bench_usrp) (what recv_timeout), Dangling)
  /\ forall (native' : multi_usrp bench_layer -> world bench_layer
                       -> native_result N * world bench_layer)
       (g' : state bench_layer) (h' : uhd_usrp),
       (uhd_usrp_get_sensor native' (mk_store g' (h', (loc r.2).2) [])).1 = Undefined.
Proof.
  apply (proj2 (sensor_getter_deletes_before_it_reads (L := bench_layer) (V := N)
                  bench_one_device bench_usrp bench_entry 0
                  ltac:(vm_compute; reflexivity) eq_refl)
           (fun dev w => (Throw recv_timeout, w)) recv_timeout 1 3 eq_refl).
Defined.

(** The bench dictionary lacks [rx_id]: two fields written, five kept. *)
Lemma rx_info_written_up_to_first_missing_key_witness :
  let info := RxInfo.mk [] [] (lit "old") [] [] [] [] in
  let r := uhd_usrp_get_rx_info (L := bench_layer) bench_info_getter 0
             (mk_store bench_one_device (bench_usrp, info) []) in
  r.1 = Returned (error_from_fault no_devices_found)
  /\ (loc r.2).1 = mk_uhd_usrp (usrp_index bench_usrp) (what no_devices_found)
  /\ take 2 (rx_info_fields (loc r.2).2)
      = (fun key => strdup (c_str (dict_value bench_info key))) <$> take 2 rx_info_keys
  /\ drop 2 (rx_info_fields (loc r.2).2) = drop 2 (rx_info_fields info).
Proof.
  apply (proj2 (rx_info_written_up_to_first_missing_key (L := bench_layer)
                  bench_one_device bench_usrp bench_info_getter 0 bench_entry 0
                  bench_info 1 (RxInfo.mk [] [] (lit "old") [] [] [] [])
                  ltac:(vm_compute; reflexivity) eq_refl eq_refl)
           2%nat (lit "rx_id") no_devices_found eq_refl eq_refl eq_refl).
Defined.

(** Its transmit keys are all there. *)
Lemma tx_info_written_up_to_first_missing_key_witness :
  let r := uhd_usrp_get_tx_info (L := bench_layer) bench_info_getter 0
             (mk_store bench_one_device
                (bench_usrp, TxInfo.mk [] [] [] [] [] [] []) []) in
  r.1 = Returned UHD_ERROR_NONE
  /\ (loc r.2).1 = bench_usrp
  /\ tx_info_fields (loc r.2).2
     = (fun key => strdup (c_str (dict_value bench_info key))) <$> tx_info_keys.
Proof.
  apply (proj1 (tx_info_written_up_to_first_missing_key (L := bench_layer)
                  bench_one_device bench_usrp bench_info_getter 0 bench_entry 0
                  bench_info 1 (TxInfo.mk [] [] [] [] [] [] [])
                  ltac:(vm_compute; reflexivity) eq_refl eq_refl)).
  reflexivity.
Defined.

(** ** Faults at the boundary *)

(* Ends a goal [caught err r] once [r] is run down to its cases. *)
Ltac caught_cases :=
  repeat (case_match; simplify_eq; cbn in * ); try congruence;
  (split; [eexists; reflexivity|]);
  intros ? Hin; cbn in Hin; decompose_list_elem_of; simplify_eq;
  repeat split; try reflexivity; apply error_from_fault_fails.

Section Boundary.
Context {L : native_layer}.

(** C6, the form the code keeps.  Every modelled operation whose handle
    resolves returns a status code of the enumeration, and a fault thrown
    by native code on the way never leaves the call: the status is the one
    the fault is classified into.  The text of the fault is saved in the
    handle's [last_error] by the calls wrapped in the error-saving macro,
    and by them only; a call wrapped in the plain macro leaves [last_error]
    as it was given.  This covers the calls of [api_call], and beside them
    [uhd_tx_streamer_send], the info getters, [uhd_usrp_find], the textual
    and list-valued getters and the EEPROM accessors.  It covers the sensor
    getters for an output handle that is null or live; given an output
    handle whose value an earlier failed read deleted, a sensor getter
    deletes it again and no status comes back. *)
Theorem faults_are_caught (g : state L) :
  (forall c, resolves c g -> exists e, status (run_call c g) = Returned e)
  /\ (forall c f, Thrown f ∈ events (run_call c g) ->
        status (run_call c g) = Returned (error_from_fault f)
        /\ error_from_fault f ≠ UHD_ERROR_NONE
        /\ handle_error (run_call c g)
           = if saves_error c then Some (what f) else given_error c)
  /\ (forall native_send h n, tx_resolves g h ->
        caught (fun m => tx_last_error m.1)
          (uhd_tx_streamer_send native_send (mk_store g (h, n) [])))
  /\ (forall (V : Type) (native : multi_usrp L -> world L -> native_result V * world L)
        h out,
        device_resolves g (usrp_index h) ->
        (out ≠ Dangling ->
           caught (fun m => last_error m.1)
             (uhd_usrp_get_sensor native (mk_store g (h, out) [])))
        /\ (out = Dangling ->
           (uhd_usrp_get_sensor native (mk_store g (h, out) [])).1 = Undefined))
  /\ (forall native chan h info, device_resolves g (usrp_index h) ->
        caught (fun m => last_error m.1)
          (uhd_usrp_get_rx_info native chan (mk_store g (h, info) [])))
  /\ (forall native chan h info, device_resolves g (usrp_index h) ->
        caught (fun m => last_error m.1)
          (uhd_usrp_get_tx_info native chan (mk_store g (h, info) [])))
  /\ (forall (D : Type) device_find args (a : uhd_device_addrs D) n,
        caught (fun m => addrs_last_error m.1)
          (uhd_usrp_find device_find args (mk_store g (a, n) [])))
  /\ (forall h, device_resolves g (usrp_index h) ->
        (forall native len buf,
           caught (fun m => last_error m.1)
             (uhd_usrp_get_string native len (mk_store g (h, buf) [])))
        /\ (forall native len buf num,
           caught (fun m => last_error m.1)
             (uhd_usrp_get_names native len (mk_store g (h, (buf, num)) [])))
        /\ (forall (E : Type) tree_get tree_set unit slot mboard (value : E),
           caught (fun m => last_error m.1)
             (uhd_usrp_get_mboard_eeprom tree_get mboard (mk_store g (h, value) []))
           /\ caught (fun m => last_error m.1)
                (uhd_usrp_set_mboard_eeprom tree_set mboard (mk_store g (h, value) []))
           /\ caught (fun m => last_error m.1)
                (uhd_usrp_get_dboard_eeprom tree_get unit slot mboard
                   (mk_store g (h, value) []))
           /\ caught (fun m => last_error m.1)
                (uhd_usrp_set_dboard_eeprom tree_set unit slot mboard
                   (mk_store g (h, value) [])))).
Proof.
  split_and!.
  - intros c. apply api_calls_caught.
  - intros c. apply api_calls_caught.
  - intros native_send h n (e & x & He & Hx). unfold caught, uhd_tx_streamer_send.
    run_with ltac:(rewrite ?He, ?Hx). caught_cases.
  - intros V native h out (e & dev & He & Hp). split.
    + intros Hout. unfold caught. destruct out; [| |congruence]; run_more;
        repeat (progress (rewrite ?He, ?Hp; cbn)); caught_cases.
    + intros ->. reflexivity.
  - intros native chan h info (e & dev & He & Hp). unfold caught. run_more.
    repeat (progress (rewrite ?He, ?Hp; cbn)). caught_cases.
  - intros native chan h info (e & dev & He & Hp). unfold caught. run_more.
    repeat (progress (rewrite ?He, ?Hp; cbn)). caught_cases.
  - intros D device_find args a n. unfold caught. run_more. caught_cases.
  - intros h (e & dev & He & Hp). split_and!.
    + intros native len buf. unfold caught. run_more.
      repeat (progress (rewrite ?He, ?Hp; cbn)). caught_cases.
    + intros native len buf num. unfold caught. run_more.
      repeat (progress (rewrite ?He, ?Hp; cbn)). caught_cases.
    + intros E tree_get tree_set unit_ slot mboard value.
      split; [|split; [|split]]; unfold caught; run_more;
        repeat (progress (rewrite ?He, ?Hp; cbn)); caught_cases.
Qed.

End Boundary.

(** A receive that times out in native code, and a sensor read that fails:
    both return, with the text saved. *)
Lemma faults_are_caught_witness :
  let c := rx_streamer_recv (L := bench_layer) (mk_uhd_rx_streamer 0 0 []) 256 0 false 9 in
  (Thrown recv_timeout ∈ events (run_call c bench_attached))
  /\ status (run_call c bench_attached) = Returned (error_from_fault recv_timeout)
  /\ error_from_fault recv_timeout ≠ UHD_ERROR_NONE
  /\ handle_error (run_call c bench_attached) = Some (what recv_timeout)
  /\ caught (fun m => last_error m.1)
       (uhd_usrp_get_sensor (L := bench_layer)
          (fun dev w => (Throw (A := N) recv_timeout, w))
          (mk_store bench_attached (bench_usrp, Live 3) [])).
Proof.
  destruct (faults_are_caught (L := bench_layer) bench_attached)
    as (_ & Hcalls & _ & Hsensor & _).
  cbv zeta.
  assert (Hin : Thrown recv_timeout
                ∈ events (run_call (L := bench_layer)
                            (rx_streamer_recv (L := bench_layer)
                               (mk_uhd_rx_streamer 0 0 []) 256 0 false 9)
                            bench_attached)) by by_decide.
  split; [exact Hin|].
  split_and!; try apply (Hcalls _ _ Hin).
  apply (Hsensor N (fun dev w => (Throw recv_timeout, w)) bench_usrp (Live 3)).
  - exists (mk_usrp_ptr (L := bench_layer) (Some 0) [1] []), 0.
    split; vm_compute; reflexivity.
  - discriminate.
Defined.
